(** * Text normalisation and feature extraction of the job-listing pipeline

    A shallow embedding of the parsing code of
      - [src/etl_pipeline.py]  (class [DataPipeline]),
      - [src/spider_pro.py]    (class [SpiderFinal], method [clean_salary]),
      - [src/model_train.py]   (class [SalaryPredictor], the row filters of
                                [load_and_preprocess]),
      - [src/export_analysis.py] (class [DataExporter], the band filter,
                                the degree labels and the skill tags),
      - [verify_fix.py]        (the filter of its report),
    followed by the properties of the specification, stated on that embedding.

    Conventions of the embedding.
      - A Python [str] is the list of its code points ([pystr]).  String
        literals of the source are written as Rocq strings and decoded from
        UTF-8 by [u].
      - A Python number is a [pynum]: an [int] is an unbounded integer, a
        [float] is carried as an exact rational.  The floats of the salary
        parser come from [x / 1000] on integers; the comparisons the code
        makes on them (against 200, and between two quotients that passed
        that guard) have the same outcome on the exact quotients as on
        their nearest doubles.  Products and sums of floats are the exact
        ones, which the doubles approximate to within rounding.
      - The all-[nan] triple of [_parse_salary] and the [None] of
        [clean_salary] are [None]; a raised exception is [Raise].
      - Character classes: [isspace] is Python's full white-space table.
        [isdigit] (the class [\d] of [re], and what [int] accepts), [upper],
        [lower] and [isalnum] are Python's tables on ASCII and on CJK
        ideographs, the alphabet of the listings; further decimal digits
        and cased letters of Unicode are treated as other symbols.  [int]
        is total: the interpreter's configurable limit on numeral length is
        not modelled. *)

From Stdlib Require Import ZArith NArith QArith Qreduction List Bool.
From Stdlib Require Import Lia Lqa String Ascii.
Import ListNotations.
Open Scope Z_scope.

(** ** The Python runtime the code relies on *)

Module Py.

(** *** Strings *)

Abbreviation char := N (only parsing).
Abbreviation pystr := (list N).

(** UTF-8 decoder for the literals: [need] continuation bytes are still
    expected for the code point accumulated in [acc]. *)
Fixpoint utf8_go (bs : list N) (need : nat) (acc : N) : pystr :=
  match bs with
  | [] => []
  | b :: bs' =>
      match need with
      | O =>
          if (b <? 128)%N then b :: utf8_go bs' 0 0%N
          else if (b <? 224)%N then utf8_go bs' 1 (b - 192)%N
          else if (b <? 240)%N then utf8_go bs' 2 (b - 224)%N
          else utf8_go bs' 3 (b - 240)%N
      | S O => (acc * 64 + (b - 128))%N :: utf8_go bs' 0 0%N
      | S k => utf8_go bs' k (acc * 64 + (b - 128))%N
      end
  end.

Definition u (s : string) : pystr :=
  utf8_go (map N_of_ascii (list_ascii_of_string s)) 0 0%N.

Definition len (s : pystr) : Z := Z.of_nat (List.length s).

Definition str_eqb (a b : pystr) : bool :=
  if list_eq_dec N.eq_dec a b then true else false.

Fixpoint startswith (p s : pystr) : bool :=
  match p, s with
  | [], _ => true
  | _ :: _, [] => false
  | c :: p', d :: s' => (c =? d)%N && startswith p' s'
  end.

(** [contains sub s] is Python's [sub in s]. *)
Fixpoint contains (sub s : pystr) : bool :=
  startswith sub s ||
  match s with
  | [] => false
  | _ :: s' => contains sub s'
  end.

Definition in_range (lo hi c : N) : bool := ((lo <=? c) && (c <=? hi))%N.

(** [str.isspace] on one character; also the class [\s] of [re]. *)
Definition isspace (c : char) : bool :=
  in_range 9 13 c || in_range 28 32 c || (c =? 133)%N || (c =? 160)%N
  || (c =? 5760)%N || in_range 8192 8202 c || (c =? 8232)%N || (c =? 8233)%N
  || (c =? 8239)%N || (c =? 8287)%N || (c =? 12288)%N.

(** The class [\d]; the digits [int] reads. *)
Definition isdigit (c : char) : bool := in_range 48 57 c.

Definition isupper_ascii (c : char) : bool := in_range 65 90 c.
Definition islower_ascii (c : char) : bool := in_range 97 122 c.
(** The CJK unified ideographs U+4E00 to U+9FA5, all of them letters. *)
Definition is_cjk (c : char) : bool := in_range 19968 40869 c.

(** [c.isalnum()]. *)
Definition isalnum (c : char) : bool :=
  isdigit c || isupper_ascii c || islower_ascii c || is_cjk c.

Definition upper_char (c : char) : char :=
  if islower_ascii c then (c - 32)%N else c.

(** [s.upper()]. *)
Definition upper (s : pystr) : pystr := map upper_char s.

Definition lower_char (c : char) : char :=
  if isupper_ascii c then (c + 32)%N else c.

(** [s.lower()], on the same alphabet as [upper]. *)
Definition lower (s : pystr) : pystr := map lower_char s.

Fixpoint take_while (p : char -> bool) (s : pystr) : pystr :=
  match s with
  | [] => []
  | c :: s' => if p c then c :: take_while p s' else []
  end.

Fixpoint drop_while (p : char -> bool) (s : pystr) : pystr :=
  match s with
  | [] => []
  | c :: s' => if p c then drop_while p s' else s
  end.

Definition lstrip (s : pystr) : pystr := drop_while isspace s.
Definition rstrip (s : pystr) : pystr := rev (drop_while isspace (rev s)).

(** [s.strip()]. *)
Definition strip (s : pystr) : pystr := rstrip (lstrip s).

(** [s.split(sep)] for a one-character separator: never the empty list. *)
Fixpoint split (sep : char) (s : pystr) : list pystr :=
  match s with
  | [] => [[]]
  | c :: s' =>
      if (c =? sep)%N then [] :: split sep s'
      else match split sep s' with
           | [] => [[c]]
           | l :: ls => (c :: l) :: ls
           end
  end.

(** [sep.join(parts)]. *)
Fixpoint join (sep : pystr) (parts : list pystr) : pystr :=
  match parts with
  | [] => []
  | [p] => p
  | p :: ps => p ++ sep ++ join sep ps
  end.

(** [s.replace(old, '')] for a non-empty [old]: the occurrences of [old]
    are removed from the left; [skip] characters of an occurrence are
    still to be dropped. *)
Fixpoint remove_from (old : pystr) (skip : nat) (s : pystr) : pystr :=
  match s with
  | [] => []
  | c :: s' =>
      match skip with
      | S k => remove_from old k s'
      | O =>
          if startswith old s then remove_from old (List.length old - 1) s'
          else c :: remove_from old 0 s'
      end
  end.

Definition remove (old s : pystr) : pystr := remove_from old 0 s.

(** Slices [s[:n]] and [s[n:]] for [n >= 0]. *)
Definition slice_to (n : nat) (s : pystr) : pystr := firstn n s.
Definition slice_from (n : nat) (s : pystr) : pystr := skipn n s.

(** *** Integers and their numerals *)

Definition digit_value (c : char) : Z := Z.of_N (c - 48).
Definition digit_char (d : Z) : char := (48 + Z.to_N d)%N.

(** [int(ds)] on a string of digits. *)
Definition int (ds : pystr) : Z :=
  fold_left (fun acc c => acc * 10 + digit_value c) ds 0.

(** The digits of [n], most significant first, pushed in front of [acc];
    [fuel] bounds the number of digits after the first. *)
Fixpoint str_digits (fuel : nat) (n : Z) (acc : pystr) : pystr :=
  let acc' := digit_char (n mod 10) :: acc in
  match fuel with
  | O => acc'
  | S f => if n <? 10 then acc' else str_digits f (n / 10) acc'
  end.

(** [str(n)] on an integer. *)
Definition str (n : Z) : pystr :=
  if n <? 0 then 45%N :: str_digits (Z.to_nat (Z.log2 (- n))) (- n) []
  else str_digits (Z.to_nat (Z.log2 n)) n [].

(** *** Numbers *)

Inductive pynum :=
| PyInt (z : Z)
| PyFloat (q : Q).

Definition to_Q (x : pynum) : Q :=
  match x with
  | PyInt z => inject_Z z
  | PyFloat q => q
  end.

(** [x > y], [x < y]. *)
Definition gt (x y : pynum) : bool :=
  match x, y with
  | PyInt a, PyInt b => b <? a
  | _, _ => negb (Qle_bool (to_Q x) (to_Q y))
  end.

Definition lt (x y : pynum) : bool := gt y x.

(** [x == y]: Python compares an int and a float by value. *)
Definition num_eqb (x y : pynum) : bool := Qeq_bool (to_Q x) (to_Q y).

(** [x * y], [x + y]: an int only when both operands are. *)
Definition mul (x y : pynum) : pynum :=
  match x, y with
  | PyInt a, PyInt b => PyInt (a * b)
  | _, _ => PyFloat (Qred (to_Q x * to_Q y))
  end.

Definition add (x y : pynum) : pynum :=
  match x, y with
  | PyInt a, PyInt b => PyInt (a + b)
  | _, _ => PyFloat (Qred (to_Q x + to_Q y))
  end.

(** [x / d] for a positive integer literal [d]: always a float. *)
Definition truediv (x : pynum) (d : positive) : pynum :=
  PyFloat (Qred (to_Q x / inject_Z (Zpos d))).

(** *** Values of a table cell, and exceptions *)

(** A cell read from the CSV file or returned by the OCR: a string, or
    missing ([nan], [None]). *)
Inductive cell :=
| Str (s : pystr)
| Missing.

Inductive result (A : Type) :=
| Ok (a : A)
| Raise (exn : string).
Arguments Ok {A} a.
Arguments Raise {A} exn.

(** *** The regular expressions of the source

    Each pattern is a concatenation of greedy character-class repetitions
    and literal characters in which the character that must follow a
    repetition is outside its class, so that backtracking into a repetition
    cannot succeed: a match attempt at a position takes every repetition at
    its maximal length.  [re.search] tries the positions from the left. *)

Fixpoint search {A : Type} (match_at : pystr -> option A) (s : pystr)
  : option A :=
  match match_at s with
  | Some r => Some r
  | None =>
      match s with
      | [] => None
      | _ :: s' => search match_at s'
      end
  end.

(** [(\d+)\s*-\s*(\d+)]: the two groups. *)
Definition match_range_at (s : pystr) : option (pystr * pystr) :=
  let g1 := take_while isdigit s in
  match g1 with
  | [] => None
  | _ :: _ =>
      match drop_while isspace (drop_while isdigit s) with
      | c :: s2 =>
          if (c =? 45)%N then
            let g2 := take_while isdigit (drop_while isspace s2) in
            match g2 with
            | [] => None
            | _ :: _ => Some (g1, g2)
            end
          else None
      | [] => None
      end
  end.

(** [re.findall(r'\d+', s)]: the maximal runs of digits, in order.
    [cur] is the run being read, reversed. *)
Fixpoint findall_digits_from (cur : pystr) (s : pystr) : list pystr :=
  match s with
  | [] => match cur with [] => [] | _ :: _ => [rev cur] end
  | c :: s' =>
      if isdigit c then findall_digits_from (c :: cur) s'
      else match cur with
           | [] => findall_digits_from [] s'
           | _ :: _ => rev cur :: findall_digits_from [] s'
           end
  end.

Definition findall_digits (s : pystr) : list pystr := findall_digits_from [] s.

End Py.

Import Py.

(** ** [src/etl_pipeline.py]: class [DataPipeline] *)

Module DataPipeline.

Definition unknown : pystr := Eval cbv in u "未知".

Definition target_cities : list pystr := Eval cbv in
  map u ["南京"; "北京"; "上海"; "广州"; "深圳"; "杭州"; "成都"; "武汉";
         "西安"; "苏州"; "长沙"; "重庆"; "合肥"]%string.

Definition company_keywords : list pystr := Eval cbv in
  map u ["公司"; "科技"; "集团"; "银行"; "软件"; "服务"; "中心"; "大学";
         "厂"; "局"]%string.

Definition middle_dot : char := 183%N.
Definition newline : char := 10%N.

(** *** [_extract_city_smart] *)

(** Rule 1 of the loop body: a line with a middle dot whose part before the
    first dot contains a city returns that part. *)
Definition dot_rule (line : pystr) : option pystr :=
  if contains [middle_dot] line then
    let part1 := hd [] (split middle_dot line) in
    if existsb (fun city => contains city part1) target_cities
    then Some part1 else None
  else None.

(** Rule 2 of the loop body: the first city of the list found in the line,
    accepted when the line is that bare city or holds no company keyword. *)
Definition city_rule (line : pystr) : option pystr :=
  match find (fun city => contains city line) target_cities with
  | None => None
  | Some matched_city =>
      let is_company := existsb (fun kw => contains kw line) company_keywords in
      if (len line <=? 3) && str_eqb matched_city line then Some matched_city
      else if negb is_company then Some matched_city
      else None
  end.

(** The loop body on the stripped line: [Some city] is a [return], [None]
    goes on with the next line ([continue] on a blank line included). *)
Definition loop_body (line : pystr) : option pystr :=
  match line with
  | [] => None
  | _ :: _ =>
      match dot_rule line with
      | Some part1 => Some part1
      | None => city_rule line
      end
  end.

(** One iteration of [for line in reversed(lines)], from [line.strip()]. *)
Definition scan_line (line : pystr) : option pystr := loop_body (strip line).

Fixpoint scan (lines : list pystr) : option pystr :=
  match lines with
  | [] => None
  | line :: rest =>
      match scan_line line with
      | Some city => Some city
      | None => scan rest
      end
  end.

Definition _extract_city_smart (raw_text : cell) : pystr :=
  match raw_text with
  | Missing => unknown
  | Str text =>
      let lines := split newline text in
      match scan (rev lines) with
      | Some city => city
      | None => unknown
      end
  end.

(** *** [_parse_salary] *)

Definition triple : Type := pynum * pynum * pynum.

(** Lines 110-119: the unit heuristic of the hyphenated branch. *)
Definition unit_convert (low high : pynum) : pynum * pynum :=
  if gt low (PyInt 50) || gt high (PyInt 50) then
    if gt low (PyInt 1000) then (truediv low 1000, truediv high 1000)
    else (low, high)
  else (low, high).

(** Lines 120-126 and again 150-159: the guard at 200, the swap and the
    returned triple. *)
Definition guard_and_emit (low high : pynum) : option triple :=
  if gt low (PyInt 200) || gt high (PyInt 200) then None
  else
    let '(low, high) := if gt low high then (high, low) else (low, high) in
    Some (mul low (PyInt 1000), mul high (PyInt 1000),
          mul (add low high) (PyInt 500)).

(** Lines 105-107: the hyphenated pattern, looked for only when the string
    holds a hyphen. *)
Definition range_match (s : pystr) : option (pystr * pystr) :=
  if contains [45%N] s then search match_range_at s else None.

(** Lines 135-148: the bounds read from the first digit run. *)
Definition fused_bounds (raw_val : Z) : option (Z * Z) :=
  if raw_val >? 200 then
    let s_val := str raw_val in
    if len s_val =? 4 then
      Some (int (slice_to 2 s_val), int (slice_from 2 s_val))
    else if len s_val =? 3 then
      Some (int (slice_to 1 s_val), int (slice_from 1 s_val))
    else None
  else Some (raw_val, raw_val).

Definition normalize (salary_str : pystr) : pystr := strip (upper salary_str).

Definition _parse_salary (salary_str : cell) : option triple :=
  match salary_str with
  | Missing => None
  | Str raw =>
      let s := normalize raw in
      match range_match s with
      | Some (g1, g2) =>
          let '(low, high) := unit_convert (PyInt (int g1)) (PyInt (int g2)) in
          guard_and_emit low high
      | None =>
          match findall_digits s with
          | [] => None
          | n0 :: _ =>
              match fused_bounds (int n0) with
              | None => None
              | Some (low, high) => guard_and_emit (PyInt low) (PyInt high)
              end
          end
      end
  end.

(** *** [_parse_exp_degree] *)

Definition nian : pystr := Eval cbv in u "年".

(** [(\d+)-(\d+)年]: the two groups. *)
Definition match_year_range_at (s : pystr) : option (pystr * pystr) :=
  let g1 := take_while isdigit s in
  match g1 with
  | [] => None
  | _ :: _ =>
      match drop_while isdigit s with
      | c :: s2 =>
          if (c =? 45)%N then
            let g2 := take_while isdigit s2 in
            match g2 with
            | [] => None
            | _ :: _ =>
                if startswith nian (drop_while isdigit s2)
                then Some (g1, g2) else None
            end
          else None
      | [] => None
      end
  end.

(** [(\d+)年]: the group. *)
Definition match_years_at (s : pystr) : option pystr :=
  let g := take_while isdigit s in
  match g with
  | [] => None
  | _ :: _ => if startswith nian (drop_while isdigit s) then Some g else None
  end.

(** [float(ds)] on a string of digits. *)
Definition float (ds : pystr) : pynum := PyFloat (inject_Z (int ds)).

(** Lines 166-173. *)
Definition parse_exp (text : pystr) : pynum :=
  match search match_year_range_at text with
  | Some (g1, g2) => truediv (add (float g1) (float g2)) 2
  | None =>
      if contains (u "应届") text || contains (u "在校") text
      then PyFloat (1 # 2)
      else match search match_years_at text with
           | Some g => float g
           | None => PyInt 0
           end
  end.

(** Line 176: ["学历不限" in text or "学历要求" in text and "不限" in text];
    Python's [and] binds tighter than [or]. *)
Definition no_degree_required (text : pystr) : bool :=
  contains (u "学历不限") text
  || (contains (u "学历要求") text && contains (u "不限") text).

(** Lines 175-186. *)
Definition parse_degree (text : pystr) : Z :=
  if no_degree_required text then 0
  else if contains (u "博士") text then 4
  else if contains (u "硕士") text then 3
  else if contains (u "本科") text then 2
  else if contains (u "大专") text then 1
  else 0.

Definition _parse_exp_degree (text : cell) : pynum * Z :=
  match text with
  | Missing => (PyInt 0, 0)
  | Str text => (parse_exp text, parse_degree text)
  end.

(** *** [clean_data]

    The data frame is the list of its rows.  Transposing the column of an
    empty frame with [zip] yields nothing to unpack, which raises
    [ValueError]: at line 202 when the input is empty and at line 216 when
    no row survives. *)

Record RawRow := {
  title : cell;
  salary : cell;
  city : cell;
  raw_text : cell
}.

Record CleanRow := {
  source : RawRow;
  city_clean : pystr;
  min_salary : pynum;
  max_salary : pynum;
  avg_salary : pynum;
  exp_years : pynum;
  degree_value : Z
}.

(** Lines 195-203: the city and the salary triple of every row; rows whose
    salary is [nan] are dropped ([dropna]). *)
Definition with_salary (df : list RawRow) : list (RawRow * pystr * triple) :=
  flat_map (fun r =>
    match _parse_salary (salary r) with
    | Some feats => [(r, _extract_city_smart (raw_text r), feats)]
    | None => []
    end) df.

(** Line 209: [(avg_salary < 50000) & (avg_salary > 2000)]. *)
Definition in_band (avg : pynum) : bool :=
  lt avg (PyInt 50000) && gt avg (PyInt 2000).

Definition avg_of (x : RawRow * pystr * triple) : pynum := snd (snd x).

Definition finish_row (x : RawRow * pystr * triple) : CleanRow :=
  let '(r, c, (lo, hi, avg)) := x in
  let '(e, d) := _parse_exp_degree (raw_text r) in
  {| source := r; city_clean := c;
     min_salary := lo; max_salary := hi; avg_salary := avg;
     exp_years := e; degree_value := d |}.

Definition clean_data (df : list RawRow) : result (list CleanRow) :=
  match df with
  | [] => Raise "ValueError"
  | _ :: _ =>
      let kept := filter (fun x => in_band (avg_of x)) (with_salary df) in
      match kept with
      | [] => Raise "ValueError"
      | _ :: _ => Ok (map finish_row kept)
      end
  end.

(** *** [feature_engineering] and [run] *)

Definition skills : list pystr := Eval cbv in
  map u ["Python"; "SQL"; "Excel"; "Tableau"; "PowerBI"; "Spark"; "Hadoop";
         "Machine Learning"; "Java"]%string.

(** A row of the table [run] writes: the cleaned row and its columns
    [has_<skill>], in the order of [skills]. *)
Record FeatureRow := {
  cleaned : CleanRow;
  has_columns : list (pystr * Z)
}.

(** Line 224: [title + ' ' + raw_text] is [nan] as soon as one of the two
    is, and [fillna('')] turns that into the empty string. *)
Definition text_data (r : CleanRow) : pystr :=
  match title (source r), raw_text (source r) with
  | Str t, Str x => lower (t ++ u " " ++ x)
  | _, _ => []
  end.

(** Lines 226-227: the column [has_<skill>] of one row. *)
Definition has_column (text : pystr) (skill : pystr) : pystr * Z :=
  (u "has_" ++ skill, if contains (lower skill) text then 1 else 0).

Definition feature_engineering (df : list CleanRow) : list FeatureRow :=
  map (fun r => {| cleaned := r;
                   has_columns := map (has_column (text_data r)) skills |}) df.

(** Lines 232-240 of [run]: the table handed to [to_sql], from the frame
    [load_data] read. *)
Definition run (df : list RawRow) : result (list FeatureRow) :=
  match clean_data df with
  | Raise e => Raise e
  | Ok rows => Ok (feature_engineering rows)
  end.

End DataPipeline.

(** ** [src/spider_pro.py]: class [SpiderFinal] *)

Module SpiderFinal.

(** [\d+-\d+K]: the matched text. *)
Definition match_range_k_at (s : pystr) : option pystr :=
  let g1 := take_while isdigit s in
  match g1 with
  | [] => None
  | _ :: _ =>
      match drop_while isdigit s with
      | c :: s2 =>
          if (c =? 45)%N then
            let g2 := take_while isdigit s2 in
            match g2 with
            | [] => None
            | _ :: _ =>
                match drop_while isdigit s2 with
                | k :: _ =>
                    if (k =? 75)%N then Some (g1 ++ [45%N] ++ g2 ++ [75%N])
                    else None
                | [] => None
                end
            end
          else None
      | [] => None
      end
  end.

(** [^(\d+)K], tried at the start of the string only: the group. *)
Definition match_fused (s : pystr) : option pystr :=
  let g := take_while isdigit s in
  match g with
  | [] => None
  | _ :: _ =>
      match drop_while isdigit s with
      | k :: _ => if (k =? 75)%N then Some g else None
      | [] => None
      end
  end.

(** Lines 77-79 and 82-84: the parts joined as ["{part1}-{part2}K"] when
    strictly increasing. *)
Definition join_if_increasing (part1 part2 : pystr) : option pystr :=
  if int part1 <? int part2 then Some (part1 ++ [45%N] ++ part2 ++ [75%N])
  else None.

(** Lines 74-84: the split attempted on a number above 100. *)
Definition smart_split (num_str : pystr) : option pystr :=
  if int num_str >? 100 then
    if len num_str =? 4 then
      join_if_increasing (slice_to 2 num_str) (slice_from 2 num_str)
    else if len num_str =? 3 then
      join_if_increasing (slice_to 1 num_str) (slice_from 1 num_str)
    else None
  else None.

(** Line 56: only alphanumerics, [-] and [.] are kept, then upper-cased. *)
Definition keep_key_chars (raw_str : pystr) : pystr :=
  upper (filter (fun c => isalnum c || (c =? 45)%N || (c =? 46)%N) raw_str).

Definition clean_salary (raw_str : cell) : option pystr :=
  match raw_str with
  | Missing => None
  | Str [] => None
  | Str (c :: cs) =>
      let s := keep_key_chars (c :: cs) in
      match search match_range_k_at s with
      | Some m => Some m
      | None =>
          match match_fused s with
          | Some num_str =>
              match smart_split num_str with
              | Some joined => Some joined
              | None => if int num_str <=? 200 then Some s else None
              end
          | None => None
          end
      end
  end.

(** Lines 147-195 of [start]: the loop over the cards of one page.  A card
    is its text and what the OCR read as its salary. *)

Record Item := {
  item_title : pystr;
  item_salary : pystr;
  item_city : pystr;
  item_raw_text : pystr
}.

Definition common_cities : list pystr := Eval cbv in
  map u ["北京"; "上海"; "广州"; "深圳"; "杭州"; "成都"; "武汉"; "南京";
         "西安"; "苏州"; "长沙"; "重庆"]%string.

(** Lines 169-176: the first line shorter than 10 characters that holds one
    of [common_cities], whole; ["未知"] without one. *)
Fixpoint simple_city (lines : list pystr) : pystr :=
  match lines with
  | [] => u "未知"
  | l :: rest =>
      if existsb (fun c => contains c l && (len l <? 10)) common_cities
      then l else simple_city rest
  end.

Definition make_item (full_text real_salary : pystr) : Item :=
  let lines := split 10%N full_text in
  {| item_title := hd [] lines;
     item_salary := real_salary;
     item_city := simple_city lines;
     item_raw_text := full_text |}.

Fixpoint process_cards (target_count : nat) (data_list : list Item)
    (job_cards : list (pystr * cell)) : list Item :=
  match job_cards with
  | [] => data_list
  | (full_text, raw_ocr_salary) :: rest =>
      if existsb (fun d => str_eqb (item_raw_text d) full_text) data_list
      then process_cards target_count data_list rest
      else
        match clean_salary raw_ocr_salary with
        | None | Some [] => process_cards target_count data_list rest
        | Some real_salary =>
            let data_list' := data_list ++ [make_item full_text real_salary] in
            if (target_count <=? List.length data_list')%nat then data_list'
            else process_cards target_count data_list' rest
        end
  end.

End SpiderFinal.

(** ** [src/model_train.py]: class [SalaryPredictor] *)

Module SalaryPredictor.

Import DataPipeline.

(** Lines 52-72 of [load_and_preprocess]: the rows of the cleaned table
    that reach training.  The feature encoding that follows is not part of
    the model. *)
Definition len_rows_lt10 (df : list CleanRow) : bool :=
  Z.of_nat (List.length df) <? 10.

Definition load_and_preprocess (df : list CleanRow) : result (list CleanRow) :=
  if len_rows_lt10 df then Raise "ValueError"
  else
    let df1 := filter (fun r => degree_value r >? 0) df in
    let df2 := filter (fun r => lt (avg_salary r) (PyInt 50000)) df1 in
    if len_rows_lt10 df2 then Raise "ValueError" else Ok df2.

End SalaryPredictor.

(** ** [src/export_analysis.py]: class [DataExporter] *)

Module DataExporter.

Import DataPipeline.

(** Lines 50-53 of [load_and_verify]: the rows of the table inside the
    band. *)
Definition load_and_verify (table : list FeatureRow) : list FeatureRow :=
  filter (fun r => lt (avg_salary (cleaned r)) (PyInt 50000)
                   && gt (avg_salary (cleaned r)) (PyInt 2000)) table.

(** Line 67, the dictionary [degree_map]. *)
Definition degree_map (d : Z) : option pystr :=
  match d with
  | 1 => Some (u "大专")
  | 2 => Some (u "本科")
  | 3 => Some (u "硕士")
  | 4 => Some (u "博士")
  | 0 => Some (u "学历不限")
  | _ => None
  end.

(** Line 68: [map(degree_map).fillna('其他')]. *)
Definition degree_label (d : Z) : pystr :=
  match degree_map d with
  | Some label => label
  | None => u "其他"
  end.

(** Lines 72-79: [get_skill_tags] on one row. *)
Definition get_skill_tags (row : FeatureRow) : pystr :=
  let skill_cols :=
    filter (fun col => startswith (u "has_") (fst col)) (has_columns row) in
  let skills :=
    map (fun col => remove (u "has_") (fst col))
        (filter (fun col => snd col =? 1) skill_cols) in
  match skills with
  | [] => u "无"
  | _ :: _ => join (u ",") skills
  end.

End DataExporter.

(** ** [verify_fix.py] *)

Module VerifyFix.

Import DataPipeline.

(** Line 33: [df_filtered]. *)
Definition df_filtered (df : list CleanRow) : list CleanRow :=
  filter (fun r => (degree_value r >? 0)
                   && lt (avg_salary r) (PyInt 50000)
                   && gt (avg_salary r) (PyInt 2000)) df.

End VerifyFix.

Import DataPipeline.

(** ** Vocabulary of the specification *)

(** [sub] occurs somewhere in [s]. *)
Definition occurs_in (sub s : pystr) : Prop :=
  exists pre post, s = pre ++ sub ++ post.

(** The line names one of the known cities, one of the company keywords. *)
Definition mentions_city (line : pystr) : Prop :=
  exists city, In city target_cities /\ occurs_in city line.

Definition mentions_company (line : pystr) : Prop :=
  exists kw, In kw company_keywords /\ occurs_in kw line.

(** What stands before the first middle dot of the line. *)
Definition before_dot (line : pystr) : pystr :=
  hd [] (split middle_dot (strip line)).

(** The line triggers the dot rule: it holds a middle dot, and a city is
    named before the first one. *)
Definition dot_names_city (line : pystr) : Prop :=
  occurs_in [middle_dot] line /\ mentions_city (before_dot line).

(** The condition of line 176 of the source, as a proposition. *)
Definition no_degree_phrase (text : pystr) : Prop :=
  occurs_in (u "学历不限") text
  \/ (occurs_in (u "学历要求") text /\ occurs_in (u "不限") text).

(** The degree code extracted from a text. *)
Definition degree_of (text : pystr) : Z := snd (_parse_exp_degree (Str text)).

(** Lines joined by newlines, as [raw_text] holds them. *)
Definition join_lines (lines : list pystr) : pystr :=
  match lines with
  | [] => []
  | l :: ls => l ++ flat_map (fun x => newline :: x) ls
  end.

(** Sample data: a listing card, a raw table of two listings, and a row
    of the cleaned table as another producer could have written it. *)
Definition sample_card : pystr :=
  join_lines (map u ["数据分析师"; "南京"; "15-25K"; "南京科技公司";
                     "3-5年 本科"]%string).

Definition sample_listings : list RawRow :=
  [ {| title := Str (u "数据分析师"); salary := Str (u "15-25K");
       city := Str (u "南京"); raw_text := Str sample_card |};
    {| title := Str (u "算法专家"); salary := Str (u "50-70K");
       city := Str (u "北京"); raw_text := Str (u "北京·海淀区") |} ].

Definition sample_clean_row : CleanRow :=
  {| source := {| title := Str (u "数据分析师"); salary := Str (u "15-25K");
                  city := Str (u "南京"); raw_text := Str sample_card |};
     city_clean := u "南京";
     min_salary := PyInt 15000; max_salary := PyInt 25000;
     avg_salary := PyInt 20000;
     exp_years := PyFloat 4; degree_value := 2 |}.

(** Two cleaned rows for the skill flags: one whose description is
    missing, one that names three skills in mixed case. *)
Definition title_only_row : CleanRow :=
  {| source := {| title := Str (u "Python工程师"); salary := Str (u "15-25K");
                  city := Str (u "南京"); raw_text := Missing |};
     city_clean := u "未知";
     min_salary := PyInt 15000; max_salary := PyInt 25000;
     avg_salary := PyInt 20000;
     exp_years := PyInt 0; degree_value := 0 |}.

Definition skilled_row : CleanRow :=
  {| source := {| title := Str (u "PYTHON数据分析师"); salary := Str (u "15-25K");
                  city := Str (u "南京");
                  raw_text := Str (u "熟悉sql和Excel") |};
     city_clean := u "未知";
     min_salary := PyInt 15000; max_salary := PyInt 25000;
     avg_salary := PyInt 20000;
     exp_years := PyInt 0; degree_value := 0 |}.

Definition skilled_feature_row : FeatureRow :=
  {| cleaned := skilled_row;
     has_columns := map (has_column (text_data skilled_row)) skills |}.

(** Ten copies of the two sample listings. *)
Definition ten_listings : list RawRow :=
  flat_map (fun _ => sample_listings) (seq 0 10).

Definition low_paid_row : CleanRow :=
  {| source := {| title := Str (u "实习生"); salary := Str (u "1-2K");
                  city := Str (u "南京"); raw_text := Str (u "南京 本科") |};
     city_clean := u "南京";
     min_salary := PyFloat 1000; max_salary := PyFloat 2000;
     avg_salary := PyFloat 1500;
     exp_years := PyFloat 0; degree_value := 2 |}.

(** A numeral: a non-empty string of digits. *)
Definition numeral (ds : pystr) : Prop :=
  ds <> [] /\ Forall (fun c => isdigit c = true) ds.

(** The salary token [<a>-<b>K] written with the numerals [da] and [db]. *)
Definition hyphen_token (da db : pystr) : pystr := da ++ u "-" ++ db ++ u "K".

(** The salary token [<n>K]. *)
Definition fused_token (ds : pystr) : pystr := ds ++ u "K".

(** The triple returned for the working-unit bounds [low <= high]. *)
Definition triple_of (low high : Z) : triple :=
  (PyInt (low * 1000), PyInt (high * 1000), PyInt ((low + high) * 500)).

(** Componentwise [==] of two triples. *)
Definition triple_eqb (x y : triple) : bool :=
  let '(a, b, c) := x in
  let '(a', b', c') := y in
  num_eqb a a' && num_eqb b b' && num_eqb c c'.

(** The bounds [_parse_salary] holds when it reaches one of its two guards
    at 200 (lines 121 and 151), after all transformations. *)
Definition bounds_at_guard (raw : pystr) : option (pynum * pynum) :=
  let s := normalize raw in
  match range_match s with
  | Some (g1, g2) => Some (unit_convert (PyInt (int g1)) (PyInt (int g2)))
  | None =>
      match findall_digits s with
      | [] => None
      | n0 :: _ =>
          match fused_bounds (int n0) with
          | None => None
          | Some (low, high) => Some (PyInt low, PyInt high)
          end
      end
  end.

(** The unit rule as the specification words it: division by 1000 as soon
    as either integer exceeds 50. *)
Definition spec_unit_convert (low high : pynum) : pynum * pynum :=
  if gt low (PyInt 50) || gt high (PyInt 50)
  then (truediv low 1000, truediv high 1000)
  else (low, high).

(** A raw row survives [clean_data]: its salary parses and the mean lies
    inside the band. *)
Definition survives (r : RawRow) : bool :=
  match _parse_salary (salary r) with
  | Some (_, _, avg) => in_band avg
  | None => false
  end.

(** A cleaned row reaches training: a degree code above 0 and a mean
    salary below 50000. *)
Definition trainable (r : CleanRow) : bool :=
  (degree_value r >? 0) && lt (avg_salary r) (PyInt 50000).

(** The skills of the vocabulary found in a text, in its order. *)
Definition skills_found (text : pystr) : list pystr :=
  filter (fun skill => contains (lower skill) text) skills.

(** The characters line 56 of [clean_salary] keeps. *)
Definition key_char (c : char) : bool := isalnum c || (c =? 45)%N || (c =? 46)%N.

(** A word that neither starts nor ends with white space. *)
Definition solid (w : pystr) : bool :=
  match w, rev w with
  | c :: _, d :: _ => negb (isspace c) && negb (isspace d)
  | _, _ => false
  end.

(** Settles every comparison of the goal that [lia] decides. *)
Ltac decide_cmp :=
  repeat match goal with
  | |- context [(?a <=? ?b)%N] =>
      first [ replace (a <=? b)%N with true by (symmetry; apply N.leb_le; lia)
            | replace (a <=? b)%N with false by (symmetry; apply N.leb_gt; lia) ]
  | |- context [(?a =? ?b)%N] =>
      first [ replace (a =? b)%N with true by (symmetry; apply N.eqb_eq; lia)
            | replace (a =? b)%N with false by (symmetry; apply N.eqb_neq; lia) ]
  end.

(** ** Characters and lists *)


Lemma isdigit_iff c : isdigit c = true <-> (48 <= c <= 57)%N.
Proof.
  unfold isdigit, in_range. rewrite andb_true_iff, !N.leb_le. tauto.
Qed.

Lemma digit_not_space c : isdigit c = true -> isspace c = false.
Proof.
  intros H%isdigit_iff. unfold isspace, in_range. decide_cmp. reflexivity.
Qed.

Lemma digit_not_lower c : isdigit c = true -> upper_char c = c.
Proof.
  intros H%isdigit_iff. unfold upper_char, islower_ascii, in_range.
  decide_cmp. reflexivity.
Qed.

Lemma digit_not_hyphen c : isdigit c = true -> (c =? 45)%N = false.
Proof. intros H%isdigit_iff. decide_cmp. reflexivity. Qed.

Lemma digit_value_range c : isdigit c = true -> 0 <= digit_value c <= 9.
Proof. intros H%isdigit_iff. unfold digit_value. lia. Qed.

Lemma digit_char_isdigit d : 0 <= d <= 9 -> isdigit (digit_char d) = true.
Proof. intros H. apply isdigit_iff. unfold digit_char. lia. Qed.

Lemma digit_value_char d : 0 <= d <= 9 -> digit_value (digit_char d) = d.
Proof. intros H. unfold digit_value, digit_char. lia. Qed.

Section While.

Variable p : char -> bool.

Lemma take_while_app l c r :
  Forall (fun x => p x = true) l -> p c = false ->
  take_while p (l ++ c :: r) = l.
Proof.
  induction 1 as [|x l Hx _ IH]; intros Hc; simpl.
  - now rewrite Hc.
  - rewrite Hx, IH; auto.
Qed.

Lemma drop_while_app l c r :
  Forall (fun x => p x = true) l -> p c = false ->
  drop_while p (l ++ c :: r) = c :: r.
Proof.
  induction 1 as [|x l Hx _ IH]; intros Hc; simpl.
  - now rewrite Hc.
  - rewrite Hx, IH; auto.
Qed.

Lemma take_while_Forall s : Forall (fun x => p x = true) (take_while p s).
Proof.
  induction s as [|c s IH]; simpl; [constructor|].
  destruct (p c) eqn:E; constructor; assumption.
Qed.

Lemma take_drop_while s : take_while p s ++ drop_while p s = s.
Proof.
  induction s as [|c s IH]; simpl; [reflexivity|].
  destruct (p c); simpl; [now rewrite IH | reflexivity].
Qed.

End While.

Lemma drop_while_stop p c r : p c = false -> drop_while p (c :: r) = c :: r.
Proof. intros H. simpl. now rewrite H. Qed.

Lemma strip_id c mid d :
  isspace c = false -> isspace d = false ->
  strip (c :: mid ++ [d]) = c :: mid ++ [d].
Proof.
  intros Hc Hd. unfold strip, lstrip, rstrip.
  rewrite (drop_while_stop _ c) by assumption.
  replace (rev (c :: mid ++ [d])) with (d :: rev (c :: mid)).
  - rewrite (drop_while_stop _ d) by assumption.
    change (rev (d :: rev (c :: mid))) with (rev (rev (c :: mid)) ++ [d]).
    now rewrite rev_involutive.
  - change (c :: mid ++ [d]) with ((c :: mid) ++ [d]).
    now rewrite rev_app_distr.
Qed.

Lemma upper_digits l :
  Forall (fun c => isdigit c = true) l -> upper l = l.
Proof.
  unfold upper. induction 1 as [|x l Hx _ IH]; simpl; [reflexivity|].
  now rewrite IH, digit_not_lower.
Qed.

Lemma upper_app a b : upper (a ++ b) = upper a ++ upper b.
Proof. apply map_app. Qed.

(** ** Numerals: [int] and [str] *)

Lemma int_snoc l c : int (l ++ [c]) = int l * 10 + digit_value c.
Proof. unfold int. now rewrite fold_left_app. Qed.

Lemma int_app l1 l2 : int (l1 ++ l2) = int l1 * 10 ^ len l2 + int l2.
Proof.
  induction l2 as [|c l2 IH] using rev_ind.
  - rewrite app_nil_r. unfold len. simpl. change (int []) with 0. lia.
  - rewrite app_assoc, !int_snoc, IH. unfold len.
    rewrite length_app, Nat2Z.inj_add.
    change (Z.of_nat (List.length [c])) with 1.
    rewrite Z.pow_add_r by lia. change (10 ^ 1) with 10. ring.
Qed.

Lemma int_bound l :
  Forall (fun c => isdigit c = true) l -> 0 <= int l < 10 ^ len l.
Proof.
  induction l as [|c l IH] using rev_ind; intros H.
  - unfold int, len. simpl. lia.
  - apply Forall_app in H as [Hl Hc]. inversion Hc as [|? ? Hd _]; subst.
    apply digit_value_range in Hd. specialize (IH Hl).
    rewrite int_snoc. unfold len in *. rewrite length_app, Nat2Z.inj_add.
    change (Z.of_nat (List.length [c])) with 1.
    rewrite Z.pow_add_r by lia. change (10 ^ 1) with 10.
    nia.
Qed.

Lemma int_lower c r :
  Forall (fun c => isdigit c = true) r -> 1 <= digit_value c ->
  10 ^ len r <= int (c :: r).
Proof.
  intros Hr Hc. change (c :: r) with ([c] ++ r). rewrite int_app.
  pose proof (int_bound r Hr). unfold int at 1. simpl fold_left.
  assert (0 < 10 ^ len r) by (apply Z.pow_pos_nonneg; unfold len; lia).
  nia.
Qed.

(** With enough fuel, [str_digits] pushes the numeral of [n]: digits only,
    read back by [int] as [n], and without a leading zero. *)
Lemma str_digits_spec fuel : forall n acc,
  0 <= n < 10 ^ Z.of_nat (S fuel) ->
  exists c r,
    str_digits fuel n acc = (c :: r) ++ acc /\
    Forall (fun c => isdigit c = true) (c :: r) /\
    int (c :: r) = n /\
    (0 < n -> 1 <= digit_value c).
Proof.
  assert (Hone : forall n acc, 0 <= n < 10 ->
    exists c r, digit_char (n mod 10) :: acc = (c :: r) ++ acc /\
      Forall (fun c => isdigit c = true) (c :: r) /\ int (c :: r) = n /\
      (0 < n -> 1 <= digit_value c)).
  { intros n acc Hn. exists (digit_char (n mod 10)), [].
    rewrite Z.mod_small by lia. repeat split.
    - constructor; [apply digit_char_isdigit; lia | constructor].
    - unfold int. simpl. rewrite digit_value_char; lia.
    - rewrite digit_value_char; lia. }
  induction fuel as [|f IH]; intros n acc Hn.
  - simpl. apply Hone. simpl in Hn. lia.
  - simpl str_digits. destruct (Z.ltb_spec n 10) as [Hlt|Hge].
    + apply Hone. lia.
    + rewrite Nat2Z.inj_succ, Z.pow_succ_r in Hn by lia.
      destruct (IH (n / 10) (digit_char (n mod 10) :: acc)) as (c & r & E & Hd & Hi & Hz).
      { split; [apply Z.div_pos; lia|]. apply Z.div_lt_upper_bound; lia. }
      exists c, (r ++ [digit_char (n mod 10)]). repeat split.
      * rewrite E. simpl. now rewrite <- app_assoc.
      * change (c :: r ++ [digit_char (n mod 10)])
          with ((c :: r) ++ [digit_char (n mod 10)]).
        apply Forall_app. split; [assumption|].
        constructor; [|constructor]. apply digit_char_isdigit.
        pose proof (Z.mod_pos_bound n 10). lia.
      * change (c :: r ++ [digit_char (n mod 10)])
          with ((c :: r) ++ [digit_char (n mod 10)]).
        rewrite int_snoc, Hi, digit_value_char.
        -- pose proof (Z.div_mod n 10). lia.
        -- pose proof (Z.mod_pos_bound n 10). lia.
      * intros _. apply Hz. apply Z.div_str_pos. lia.
Qed.

Lemma str_fuel n : 0 <= n -> n < 10 ^ Z.of_nat (S (Z.to_nat (Z.log2 n))).
Proof.
  intros Hn. rewrite Nat2Z.inj_succ, Z2Nat.id by apply Z.log2_nonneg.
  destruct (Z.eq_dec n 0) as [->|Hnz]; [reflexivity|].
  pose proof (Z.log2_spec n ltac:(lia)) as [_ H].
  eapply Z.lt_le_trans; [exact H|].
  apply Z.pow_le_mono_l. lia.
Qed.

(** [str n] for [n >= 0]: a numeral that [int] reads back, with no leading
    zero unless [n = 0]. *)
Lemma str_spec n :
  0 <= n ->
  exists c r,
    str n = c :: r /\
    Forall (fun c => isdigit c = true) (c :: r) /\
    int (c :: r) = n /\
    (0 < n -> 1 <= digit_value c).
Proof.
  intros Hn. unfold str.
  destruct (Z.ltb_spec n 0) as [?|_]; [lia|].
  destruct (str_digits_spec _ n [] (conj Hn (str_fuel n Hn)))
    as (c & r & E & H).
  exists c, r. rewrite E, app_nil_r. auto.
Qed.

Lemma str_numeral n : 0 <= n -> numeral (str n).
Proof.
  intros Hn. destruct (str_spec n Hn) as (c & r & E & Hd & _).
  rewrite E. split; [discriminate | assumption].
Qed.

Lemma int_str n : 0 <= n -> int (str n) = n.
Proof.
  intros Hn. destruct (str_spec n Hn) as (c & r & E & _ & Hi & _).
  now rewrite E.
Qed.

(** The number of digits of [str n]. *)
Lemma str_len n :
  0 < n -> 10 ^ (len (str n) - 1) <= n < 10 ^ len (str n).
Proof.
  intros Hn. destruct (str_spec n ltac:(lia)) as (c & r & E & Hd & Hi & Hz).
  rewrite E. split.
  - replace (len (c :: r) - 1) with (len r)
      by (unfold len; simpl List.length; lia).
    rewrite <- Hi. apply int_lower; [now inversion Hd | auto].
  - rewrite <- Hi at 1. now apply int_bound.
Qed.

Lemma str_len_iff n k :
  0 < n -> 1 <= k -> (len (str n) = k <-> 10 ^ (k - 1) <= n < 10 ^ k).
Proof.
  intros Hn Hk. pose proof (str_len n Hn) as [Hlo Hhi].
  assert (Hl : 1 <= len (str n)).
  { destruct (str_spec n ltac:(lia)) as (c & r & E & _). rewrite E.
    unfold len. simpl List.length. lia. }
  split.
  - intros <-. auto.
  - intros [Klo Khi].
    assert (len (str n) - 1 < k).
    { apply (Z.pow_lt_mono_r_iff 10); lia. }
    assert (k - 1 < len (str n)).
    { apply (Z.pow_lt_mono_r_iff 10); lia. }
    lia.
Qed.

(** The two halves of a numeral cut [k] digits before its end. *)
Lemma int_halves l (k : nat) :
  Forall (fun c => isdigit c = true) l ->
  (k <= List.length l)%nat ->
  int (slice_to (List.length l - k) l) = int l / 10 ^ Z.of_nat k /\
  int (slice_from (List.length l - k) l) = int l mod 10 ^ Z.of_nat k.
Proof.
  intros Hd Hk. unfold slice_to, slice_from.
  set (m := (List.length l - k)%nat).
  assert (Hs : Forall (fun c => isdigit c = true) (skipn m l)).
  { rewrite <- (firstn_skipn m l) in Hd. now apply Forall_app in Hd. }
  pose proof (int_bound _ Hs) as Hb.
  assert (Hlen : len (skipn m l) = Z.of_nat k).
  { unfold len. rewrite length_skipn. subst m. lia. }
  rewrite Hlen in Hb.
  pose proof (int_app (firstn m l) (skipn m l)) as E.
  rewrite firstn_skipn, Hlen in E.
  assert (0 < 10 ^ Z.of_nat k) by (apply Z.pow_pos_nonneg; lia).
  split.
  - apply (Z.div_unique _ _ _ (int (skipn m l))); lia.
  - apply (Z.mod_unique _ _ (int (firstn m l))); lia.
Qed.

(** ** The salary parser on its two token shapes *)

Lemma contains_single c s : contains [c] s = existsb (N.eqb c) s.
Proof.
  induction s as [|d s IH]; [reflexivity|].
  cbn [contains startswith existsb]. rewrite IH.
  now rewrite andb_true_r.
Qed.

Lemma findall_digits_from_run cur ds c rest :
  Forall (fun c => isdigit c = true) ds -> isdigit c = false ->
  rev cur ++ ds <> [] ->
  findall_digits_from cur (ds ++ c :: rest)
  = (rev cur ++ ds) :: findall_digits rest.
Proof.
  intros Hd Hc. revert cur.
  induction Hd as [|x ds Hx _ IH]; intros cur Hne; simpl.
  - rewrite Hc. rewrite app_nil_r in *.
    destruct cur; [now contradiction Hne|reflexivity].
  - rewrite Hx, IH; simpl.
    + now rewrite <- app_assoc.
    + destruct (rev cur); discriminate.
Qed.

Lemma findall_digits_from_numerals s : forall cur,
  Forall (fun c => isdigit c = true) cur ->
  Forall numeral (findall_digits_from cur s).
Proof.
  assert (Hrev : forall c cur, Forall (fun c => isdigit c = true) (c :: cur) ->
                               numeral (rev (c :: cur))).
  { intros c cur H. split.
    - simpl. intros E. now apply app_eq_nil in E as [_ [=]].
    - now apply Forall_rev. }
  induction s as [|c s IH]; intros cur Hcur; simpl.
  - destruct cur; constructor; [now apply Hrev | constructor].
  - destruct (isdigit c) eqn:E.
    + apply IH. now constructor.
    + destruct cur; [apply IH; constructor|].
      constructor; [now apply Hrev | apply IH; constructor].
Qed.

(** Every run returned by [re.findall(r'\d+', s)] is a numeral. *)
Lemma findall_digits_numerals s : Forall numeral (findall_digits s).
Proof. apply findall_digits_from_numerals. constructor. Qed.

Lemma numeral_cons ds : numeral ds -> exists c r, ds = c :: r /\ isdigit c = true.
Proof.
  intros [Hne Hd]. destruct ds as [|c r]; [contradiction|].
  exists c, r. split; [reflexivity|]. now inversion Hd.
Qed.

Lemma search_here {A} (match_at : pystr -> option A) s r :
  match_at s = Some r -> search match_at s = Some r.
Proof. intros H. destruct s; simpl; now rewrite H. Qed.

(** The hyphenated pattern on [<a>-<b>] followed by a non-digit. *)
Lemma match_range_at_hyphen da db c rest :
  numeral da -> numeral db -> isdigit c = false ->
  match_range_at (da ++ 45%N :: db ++ c :: rest) = Some (da, db).
Proof.
  intros [Ha Hda] [Hb Hdb] Hc. unfold match_range_at.
  rewrite take_while_app, drop_while_app by (assumption || reflexivity).
  destruct da as [|a da']; [contradiction|].
  rewrite drop_while_stop by reflexivity.
  cbn [N.eqb Pos.eqb].
  destruct db as [|b db']; [contradiction|].
  assert (Hsp : isspace b = false) by (apply digit_not_space; now inversion Hdb).
  cbn [app]. rewrite (drop_while_stop _ b) by assumption.
  change (b :: db' ++ c :: rest) with ((b :: db') ++ c :: rest).
  now rewrite take_while_app by assumption.
Qed.

Lemma normalize_hyphen_token da db :
  numeral da -> numeral db ->
  normalize (hyphen_token da db) = hyphen_token da db.
Proof.
  intros Ha Hb. unfold normalize, hyphen_token.
  change (u "-") with [45%N]. change (u "K") with [75%N].
  rewrite !upper_app, (upper_digits da), (upper_digits db)
    by (apply Ha || apply Hb).
  change (upper [45%N]) with [45%N]. change (upper [75%N]) with [75%N].
  destruct (numeral_cons _ Ha) as (a & da' & -> & Hda).
  rewrite !app_assoc. cbn [app]. rewrite <- !app_assoc. cbn [app].
  match goal with |- strip ?s = _ =>
    assert (E : s = a :: (da' ++ 45%N :: db) ++ [75%N])
      by (now rewrite <- app_assoc)
  end.
  rewrite E. apply strip_id; [now apply digit_not_space | reflexivity].
Qed.

Lemma range_match_hyphen_token da db :
  numeral da -> numeral db ->
  range_match (hyphen_token da db) = Some (da, db).
Proof.
  intros Ha Hb. unfold range_match, hyphen_token.
  change (u "-") with [45%N]. change (u "K") with [75%N].
  rewrite contains_single, existsb_app. cbn [existsb app N.eqb Pos.eqb orb].
  rewrite orb_true_r. apply search_here.
  now apply match_range_at_hyphen.
Qed.

(** [_parse_salary] on [<a>-<b>K]: the unit rule on the two integers, then
    the guard. *)
Lemma parse_salary_hyphen_token da db :
  numeral da -> numeral db ->
  _parse_salary (Str (hyphen_token da db))
  = let '(low, high) := unit_convert (PyInt (int da)) (PyInt (int db)) in
    guard_and_emit low high.
Proof.
  intros Ha Hb. unfold _parse_salary.
  now rewrite normalize_hyphen_token, range_match_hyphen_token.
Qed.

(** The unit rule divides exactly when the first integer exceeds 1000. *)
Lemma unit_convert_ints a b :
  unit_convert (PyInt a) (PyInt b)
  = if 1000 <? a then (truediv (PyInt a) 1000, truediv (PyInt b) 1000)
    else (PyInt a, PyInt b).
Proof.
  unfold unit_convert, gt.
  destruct (Z.ltb_spec 1000 a) as [H|H].
  - replace (50 <? a) with true by (symmetry; apply Z.ltb_lt; lia).
    reflexivity.
  - now destruct (_ || _).
Qed.

Lemma guard_and_emit_ints a b :
  a <= 200 -> b <= 200 ->
  guard_and_emit (PyInt a) (PyInt b) = Some (triple_of (Z.min a b) (Z.max a b)).
Proof.
  intros Ha Hb. unfold guard_and_emit, gt, triple_of.
  replace (200 <? a) with false by (symmetry; apply Z.ltb_ge; lia).
  replace (200 <? b) with false by (symmetry; apply Z.ltb_ge; lia).
  cbn [orb]. destruct (Z.ltb_spec b a) as [H|H]; cbn [mul add].
  - rewrite Z.min_r, Z.max_l by lia. reflexivity.
  - rewrite Z.min_l, Z.max_r by lia. reflexivity.
Qed.

Lemma gt_spec x y : gt x y = true <-> (to_Q y < to_Q x)%Q.
Proof.
  assert (G : negb (Qle_bool (to_Q x) (to_Q y)) = true
              <-> (to_Q y < to_Q x)%Q).
  { rewrite negb_true_iff. split.
    - intros H. apply Qnot_le_lt. intros L.
      apply Qle_bool_iff in L. congruence.
    - intros H. destruct (Qle_bool (to_Q x) (to_Q y)) eqn:E; [|reflexivity].
      apply Qle_bool_iff in E. now apply Qlt_not_le in H. }
  destruct x as [a|p], y as [b|q]; try exact G.
  unfold gt. cbn [to_Q]. rewrite Z.ltb_lt, Zlt_Qlt. reflexivity.
Qed.

Lemma gt_false_spec x y : gt x y = false <-> (to_Q x <= to_Q y)%Q.
Proof.
  split.
  - intros H. apply Qnot_lt_le. intros L. apply gt_spec in L. congruence.
  - intros H. destruct (gt x y) eqn:E; [|reflexivity].
    apply gt_spec in E. now apply Qlt_not_le in E.
Qed.

(** The digits of [s_val] and the bounds they give (lines 135-148). *)
Lemma fused_bounds_spec v :
  (v <= 200 -> fused_bounds v = Some (v, v)) /\
  (200 < v < 10000 -> fused_bounds v = Some (v / 100, v mod 100)) /\
  (10000 <= v -> fused_bounds v = None).
Proof.
  unfold fused_bounds. repeat split; intros H.
  - replace (v >? 200) with false by (symmetry; rewrite Z.gtb_ltb; apply Z.ltb_ge; lia).
    reflexivity.
  - replace (v >? 200) with true by (symmetry; rewrite Z.gtb_ltb; apply Z.ltb_lt; lia).
    destruct (str_spec v ltac:(lia)) as (c & r & E & Hd & Hi & _).
    assert (Hlen : forall k, 1 <= k -> len (c :: r) = k <-> 10 ^ (k - 1) <= v < 10 ^ k).
    { intros k Hk. rewrite <- E. apply str_len_iff; lia. }
    rewrite E.
    destruct (Z.lt_ge_cases v 1000) as [Hs|Hb].
    + assert (L3 : len (c :: r) = 3) by (apply Hlen; simpl; lia).
      rewrite L3. cbn [Z.eqb Pos.eqb].
      assert (Ln : List.length (c :: r) = 3%nat) by (unfold len in L3; lia).
      destruct (int_halves (c :: r) 2 Hd ltac:(lia)) as [E1 E2].
      rewrite Ln in E1, E2. cbn [Nat.sub] in E1, E2.
      now rewrite E1, E2, Hi.
    + assert (L4 : len (c :: r) = 4) by (apply Hlen; simpl; lia).
      rewrite L4. cbn [Z.eqb Pos.eqb].
      assert (Ln : List.length (c :: r) = 4%nat) by (unfold len in L4; lia).
      destruct (int_halves (c :: r) 2 Hd ltac:(lia)) as [E1 E2].
      rewrite Ln in E1, E2. cbn [Nat.sub] in E1, E2.
      now rewrite E1, E2, Hi.
  - replace (v >? 200) with true by (symmetry; rewrite Z.gtb_ltb; apply Z.ltb_lt; lia).
    assert (N4 : len (str v) <> 4).
    { intros L. apply str_len_iff in L; simpl in L; lia. }
    assert (N3 : len (str v) <> 3).
    { intros L. apply str_len_iff in L; simpl in L; lia. }
    apply Z.eqb_neq in N4, N3. now rewrite N4, N3.
Qed.

(** [_parse_salary] when the hyphenated pattern is absent: the first digit
    run decides. *)
Lemma parse_salary_first_run raw r rest :
  range_match (normalize raw) = None ->
  findall_digits (normalize raw) = r :: rest ->
  _parse_salary (Str raw)
  = match fused_bounds (int r) with
    | None => None
    | Some (low, high) => guard_and_emit (PyInt low) (PyInt high)
    end.
Proof. intros Hr Hf. unfold _parse_salary. now rewrite Hr, Hf. Qed.

(** Where the hypotheses of [parse_salary_first_run] hold: a string without
    hyphen has no hyphenated range, and the first digit run is the first
    numeral that non-digits surround. *)
Lemma range_match_no_hyphen s : ~ In 45%N s -> range_match s = None.
Proof.
  intros Hn. unfold range_match. rewrite contains_single.
  destruct (existsb (N.eqb 45) s) eqn:E; [|reflexivity].
  apply existsb_exists in E as (x & Hin & Hx%N.eqb_eq). now subst x.
Qed.

Lemma findall_digits_first_run pre ds c rest :
  Forall (fun x => isdigit x = false) pre -> numeral ds -> isdigit c = false ->
  findall_digits (pre ++ ds ++ c :: rest) = ds :: findall_digits rest.
Proof.
  intros Hpre [Hne Hd] Hc. unfold findall_digits.
  induction Hpre as [|x pre Hx _ IH]; simpl.
  - now apply (findall_digits_from_run []).
  - now rewrite Hx.
Qed.

Lemma split_halves_small v :
  200 < v < 10000 -> 0 <= v / 100 <= 200 /\ 0 <= v mod 100 <= 200.
Proof.
  intros H. pose proof (Z.mod_pos_bound v 100 ltac:(lia)).
  assert (v / 100 < 100) by (apply Z.div_lt_upper_bound; lia).
  assert (0 <= v / 100) by (apply Z.div_pos; lia). lia.
Qed.

Lemma normalize_fused_token ds :
  numeral ds -> normalize (fused_token ds) = fused_token ds.
Proof.
  intros Hd. unfold normalize, fused_token. change (u "K") with [75%N].
  rewrite upper_app, upper_digits by apply Hd.
  change (upper [75%N]) with [75%N].
  destruct (numeral_cons _ Hd) as (a & ds' & -> & Ha).
  cbn [app]. apply strip_id; [now apply digit_not_space | reflexivity].
Qed.

Lemma range_match_fused_token ds :
  numeral ds -> range_match (fused_token ds) = None.
Proof.
  intros [_ Hd]. unfold range_match, fused_token. change (u "K") with [75%N].
  rewrite contains_single, existsb_app. cbn [existsb N.eqb Pos.eqb orb].
  rewrite orb_false_r.
  match goal with |- context [existsb ?f ds] =>
    assert (E : existsb f ds = false)
  end.
  { induction Hd as [|x l Hx _ IH]; [reflexivity|].
    cbn [existsb]. rewrite IH, N.eqb_sym, digit_not_hyphen by assumption.
    reflexivity. }
  now rewrite E.
Qed.

Lemma findall_digits_fused_token ds :
  numeral ds -> findall_digits (fused_token ds) = [ds].
Proof.
  intros [Hne Hd]. unfold findall_digits, fused_token.
  change (u "K") with [75%N].
  rewrite findall_digits_from_run by (assumption || reflexivity).
  reflexivity.
Qed.

(** [_parse_salary] on [<n>K]. *)
Lemma parse_salary_fused_token ds :
  numeral ds ->
  _parse_salary (Str (fused_token ds))
  = match fused_bounds (int ds) with
    | None => None
    | Some (low, high) => guard_and_emit (PyInt low) (PyInt high)
    end.
Proof.
  intros Hd. apply (parse_salary_first_run _ ds []).
  - rewrite normalize_fused_token by assumption.
    now apply range_match_fused_token.
  - rewrite normalize_fused_token by assumption.
    now apply findall_digits_fused_token.
Qed.

Lemma parse_salary_via_bounds raw :
  _parse_salary (Str raw)
  = match bounds_at_guard raw with
    | None => None
    | Some (low, high) => guard_and_emit low high
    end.
Proof.
  unfold _parse_salary, bounds_at_guard.
  destruct (range_match (normalize raw)) as [[g1 g2]|].
  - now destruct (unit_convert _ _).
  - destruct (findall_digits (normalize raw)) as [|n0 ?]; [reflexivity|].
    now destruct (fused_bounds (int n0)) as [[? ?]|].
Qed.

Lemma guard_and_emit_some low high :
  gt low (PyInt 200) = false -> gt high (PyInt 200) = false ->
  exists t, guard_and_emit low high = Some t.
Proof.
  intros H1 H2. unfold guard_and_emit. rewrite H1, H2. cbn [orb].
  destruct (gt low high); eauto.
Qed.

Lemma guard_and_emit_none low high :
  gt low (PyInt 200) || gt high (PyInt 200) = true ->
  guard_and_emit low high = None.
Proof. intros H. unfold guard_and_emit. now rewrite H. Qed.

(** ** Salary parsing: the properties of the specification *)

(** [_parse_salary] on [<a>-<b>K] for numerals of value [a <= b <= 200]. *)
Lemma parse_salary_hyphen_small da db :
  numeral da -> numeral db -> int da <= int db -> int db <= 200 ->
  _parse_salary (Str (hyphen_token da db)) = Some (triple_of (int da) (int db)).
Proof.
  intros Ha Hb Hab Hb200.
  rewrite parse_salary_hyphen_token, unit_convert_ints by assumption.
  replace (1000 <? int da) with false by (symmetry; apply Z.ltb_ge; lia).
  rewrite guard_and_emit_ints by lia.
  now rewrite Z.min_l, Z.max_r by lia.
Qed.

(** C1.  For integers [0 <= a <= b <= 200], the salary token [<a>-<b>K]
    parses to [(a * 1000, b * 1000, (a + b) * 500)].  The components are
    Python ints, equal under [==] to the floats the specification writes. *)
Theorem parse_salary_range (a b : Z) :
  0 <= a -> a <= b -> b <= 200 ->
  _parse_salary (Str (hyphen_token (str a) (str b)))
  = Some (PyInt (a * 1000), PyInt (b * 1000), PyInt ((a + b) * 500)).
Proof.
  intros Ha Hab Hb.
  rewrite parse_salary_hyphen_small.
  - now rewrite !int_str by lia.
  - apply str_numeral; lia.
  - apply str_numeral; lia.
  - rewrite !int_str by lia. assumption.
  - rewrite int_str by lia. assumption.
Qed.

(** C1 at ["15-25K"]: the triple [(15000, 25000, 20000)], which compares
    equal to [(15000.0, 25000.0, 20000.0)]. *)
Lemma parse_salary_range_15_25 :
  0 <= 15 /\ 15 <= 25 /\ 25 <= 200 /\
  _parse_salary (Str (u "15-25K"))
  = Some (PyInt 15000, PyInt 25000, PyInt 20000) /\
  triple_eqb (PyInt 15000, PyInt 25000, PyInt 20000)
             (PyFloat 15000, PyFloat 25000, PyFloat 20000) = true.
Proof.
  split; [lia|]. split; [lia|]. split; [lia|]. split; [|reflexivity].
  exact (parse_salary_range 15 25 ltac:(lia) ltac:(lia) ltac:(lia)).
Defined.

(** C4, as the code has it.  On a token [<a>-<b>K] the two integers are
    divided by 1000 exactly when the first one exceeds 1000; otherwise they
    reach the guard at 200 unchanged, in particular when both are at most
    50.  The triple is the guard's answer on these bounds. *)
Theorem unit_rule_divides_above_1000 (da db : pystr) :
  numeral da -> numeral db ->
  bounds_at_guard (hyphen_token da db)
  = Some (if 1000 <? int da
          then (truediv (PyInt (int da)) 1000, truediv (PyInt (int db)) 1000)
          else (PyInt (int da), PyInt (int db)))
  /\ _parse_salary (Str (hyphen_token da db))
     = (if 1000 <? int da
        then guard_and_emit (truediv (PyInt (int da)) 1000)
                            (truediv (PyInt (int db)) 1000)
        else guard_and_emit (PyInt (int da)) (PyInt (int db)))
  /\ (int da <= 50 -> int db <= 50 ->
      bounds_at_guard (hyphen_token da db)
      = Some (PyInt (int da), PyInt (int db))).
Proof.
  intros Ha Hb.
  assert (E : bounds_at_guard (hyphen_token da db)
              = Some (unit_convert (PyInt (int da)) (PyInt (int db)))).
  { unfold bounds_at_guard.
    now rewrite normalize_hyphen_token, range_match_hyphen_token. }
  rewrite parse_salary_via_bounds, E, unit_convert_ints.
  repeat split.
  - now destruct (1000 <? int da).
  - intros H _.
    now replace (1000 <? int da) with false by (symmetry; apply Z.ltb_ge; lia).
Qed.

(** C4 at ["5000-8000K"] (divided: 5.0 and 8.0) and at ["15-25K"] (kept). *)
Lemma unit_rule_divides_above_1000_examples :
  (bounds_at_guard (u "5000-8000K") = Some (PyFloat 5, PyFloat 8) /\
   _parse_salary (Str (u "5000-8000K"))
   = Some (PyFloat 5000, PyFloat 8000, PyFloat 6500)) /\
  bounds_at_guard (u "15-25K") = Some (PyInt 15, PyInt 25).
Proof.
  assert (N : forall s, s <> [] -> forallb isdigit s = true -> numeral s).
  { intros s Hne H. split; [assumption|].
    apply Forall_forall. now apply forallb_forall. }
  pose proof (unit_rule_divides_above_1000 (u "5000") (u "8000")
                ltac:(now apply N) ltac:(now apply N)) as (H1 & H2 & _).
  pose proof (unit_rule_divides_above_1000 (u "15") (u "25")
                ltac:(now apply N) ltac:(now apply N)) as (_ & _ & H3).
  split; [split|].
  - exact H1.
  - exact H2.
  - apply H3; vm_compute; discriminate.
Defined.

(** C4 as stated fails at ["60-80K"]: both integers exceed 50 and neither
    is divided; the rule of the specification would give 0.06 and 0.08. *)
Lemma unit_rule_not_above_50 :
  gt (PyInt 60) (PyInt 50) = true /\
  gt (PyInt 80) (PyInt 50) = true /\
  bounds_at_guard (u "60-80K") = Some (PyInt 60, PyInt 80) /\
  spec_unit_convert (PyInt 60) (PyInt 80)
  = (PyFloat (3 # 50), PyFloat (2 # 25)) /\
  unit_convert (PyInt 60) (PyInt 80) <> spec_unit_convert (PyInt 60) (PyInt 80) /\
  _parse_salary (Str (u "60-80K"))
  = Some (PyInt 60000, PyInt 80000, PyInt 70000).
Proof. repeat split; vm_compute; discriminate. Qed.

(** C5.  Whatever the input, once [_parse_salary] holds a pair of bounds at
    one of its guards: a bound above 200 gives the rejection, and bounds of
    at most 200 (200 included) give a triple. *)
Theorem guard_rejects_above_200 (raw : pystr) (low high : pynum) :
  bounds_at_guard raw = Some (low, high) ->
  ((200 < to_Q low \/ 200 < to_Q high)%Q -> _parse_salary (Str raw) = None)
  /\ ((to_Q low <= 200 /\ to_Q high <= 200)%Q ->
      exists t, _parse_salary (Str raw) = Some t).
Proof.
  intros Hb. rewrite parse_salary_via_bounds, Hb. split.
  - intros H. apply guard_and_emit_none, orb_true_iff.
    destruct H as [H|H]; [left|right]; now apply gt_spec.
  - intros [H1 H2]. apply guard_and_emit_some; now apply gt_false_spec.
Qed.

(** C5 at the boundary: a bound of 200 passes, a bound of 201 does not. *)
Lemma guard_rejects_above_200_boundary :
  (bounds_at_guard (u "150-200K") = Some (PyInt 150, PyInt 200) /\
   exists t, _parse_salary (Str (u "150-200K")) = Some t) /\
  (bounds_at_guard (u "150-201K") = Some (PyInt 150, PyInt 201) /\
   _parse_salary (Str (u "150-201K")) = None).
Proof.
  split.
  - split; [reflexivity|].
    apply (guard_rejects_above_200 (u "150-200K") (PyInt 150) (PyInt 200));
      [reflexivity|]. split; vm_compute; discriminate.
  - split; [reflexivity|].
    apply (guard_rejects_above_200 (u "150-201K") (PyInt 150) (PyInt 201));
      [reflexivity|]. right. reflexivity.
Defined.

(** The boundary on whole tokens, in both branches and in both units. *)
Example guard_boundary_tokens :
  _parse_salary (Str (u "200K"))
  = Some (PyInt 200000, PyInt 200000, PyInt 200000) /\
  _parse_salary (Str (u "200-200K"))
  = Some (PyInt 200000, PyInt 200000, PyInt 200000) /\
  _parse_salary (Str (u "201-201K")) = None /\
  _parse_salary (Str (u "200000-200000"))
  = Some (PyFloat 200000, PyFloat 200000, PyFloat 200000) /\
  _parse_salary (Str (u "200001-200001")) = None.
Proof. repeat split. Qed.

(** In the second branch the guard never fires: the bounds read from a
    digit run are at most 200. *)
Lemma fused_bounds_within_guard v low high :
  0 <= v -> fused_bounds v = Some (low, high) -> low <= 200 /\ high <= 200.
Proof.
  intros Hv. destruct (fused_bounds_spec v) as (H1 & H2 & H3).
  destruct (Z.le_gt_cases v 200) as [Hs|Hl].
  - rewrite H1 by assumption. intros [= <- <-]. lia.
  - destruct (Z.lt_ge_cases v 10000) as [Hm|Hb].
    + rewrite H2 by lia. intros [= <- <-].
      pose proof (split_halves_small v ltac:(lia)). lia.
    + rewrite H3 by assumption. discriminate.
Qed.

(** C2, as the code has it.  When the hyphenated pattern is absent and the
    first digit run [r] has a value [v] above 200, the value is cut two
    digits before its end: the triple is that of [v / 100] and [v mod 100]
    (smaller first) whenever [v] has three or four digits, and the token is
    rejected exactly when [v] has five digits or more.  For a run of four
    digits the two parts are its two 2-digit halves, for a run of three
    digits its first digit and its last two.  The number of digits is that
    of [str v]: leading zeros of the run do not count. *)
Theorem fused_split (raw r : pystr) (rest : list pystr) :
  range_match (normalize raw) = None ->
  findall_digits (normalize raw) = r :: rest ->
  200 < int r ->
  (int r < 10000 ->
   _parse_salary (Str raw)
   = Some (triple_of (Z.min (int r / 100) (int r mod 100))
                     (Z.max (int r / 100) (int r mod 100))))
  /\ (10000 <= int r -> _parse_salary (Str raw) = None)
  /\ (List.length r = 4%nat ->
      int r < 10000 /\
      int r / 100 = int (slice_to 2 r) /\ int r mod 100 = int (slice_from 2 r))
  /\ (List.length r = 3%nat ->
      int r < 10000 /\
      int r / 100 = int (slice_to 1 r) /\ int r mod 100 = int (slice_from 1 r))
  /\ (len (str (int r)) = 4 <-> 1000 <= int r < 10000)
  /\ (len (str (int r)) = 3 <-> 100 <= int r < 1000).
Proof.
  intros Hr Hf Hv.
  assert (Hd : Forall (fun c => isdigit c = true) r).
  { pose proof (findall_digits_numerals (normalize raw)) as H.
    rewrite Hf in H. inversion H as [|? ? [_ Hd] _]. exact Hd. }
  rewrite (parse_salary_first_run raw r rest Hr Hf).
  destruct (fused_bounds_spec (int r)) as (_ & H2 & H3).
  split; [|split; [|split; [|split; [|split]]]].
  - intros Hlt. rewrite H2 by lia.
    pose proof (split_halves_small (int r) ltac:(lia)).
    apply guard_and_emit_ints; lia.
  - intros Hge. now rewrite H3.
  - intros L. pose proof (int_bound r Hd) as B.
    unfold len in B. rewrite L in B. change (10 ^ Z.of_nat 4) with 10000 in B.
    destruct (int_halves r 2 Hd ltac:(lia)) as [E1 E2].
    rewrite L in E1, E2. cbn [Nat.sub] in E1, E2.
    change (10 ^ Z.of_nat 2) with 100 in E1, E2. now rewrite E1, E2.
  - intros L. pose proof (int_bound r Hd) as B.
    unfold len in B. rewrite L in B. change (10 ^ Z.of_nat 3) with 1000 in B.
    destruct (int_halves r 2 Hd ltac:(lia)) as [E1 E2].
    rewrite L in E1, E2. cbn [Nat.sub] in E1, E2.
    change (10 ^ Z.of_nat 2) with 100 in E1, E2.
    rewrite E1, E2. repeat split. lia.
  - apply str_len_iff; lia.
  - apply str_len_iff; lia.
Qed.

(** C2 at ["2140K"]: split into 21 and 40. *)
Lemma fused_split_2140 :
  range_match (normalize (u "2140K")) = None /\
  findall_digits (normalize (u "2140K")) = [u "2140"] /\
  200 < int (u "2140") /\
  _parse_salary (Str (u "2140K"))
  = Some (PyInt 21000, PyInt 40000, PyInt 30500).
Proof.
  split; [reflexivity|]. split; [reflexivity|]. split; [reflexivity|].
  apply (fused_split (u "2140K") (u "2140") []); reflexivity.
Defined.

(** C2 as stated fails at ["02140K"]: the first digit run has five digits,
    neither three nor four, its value exceeds 200, and the token is not
    rejected. *)
Lemma fused_split_leading_zero :
  range_match (normalize (u "02140K")) = None /\
  findall_digits (normalize (u "02140K")) = [u "02140"] /\
  len (u "02140") = 5 /\
  200 < int (u "02140") /\
  _parse_salary (Str (u "02140K"))
  = Some (PyInt 21000, PyInt 40000, PyInt 30500) /\
  _parse_salary (Str (u "02140K")) <> None.
Proof. repeat split; vm_compute; discriminate. Qed.

(** C3, as the code has it.  For digits X, Y, Z, W with XY <= ZW whose
    run XYZW has a value above 200, so that the parser splits it, the fused
    token [XYZWK] and the hyphenated token [XY-ZWK] parse to the same
    triple.  (ZW is at most 99, hence at most 200.) *)
Theorem fused_equals_hyphenated (x y z w : char) :
  isdigit x = true -> isdigit y = true ->
  isdigit z = true -> isdigit w = true ->
  int [x; y] <= int [z; w] ->
  200 < int [x; y; z; w] ->
  _parse_salary (Str (fused_token [x; y; z; w]))
  = _parse_salary (Str (hyphen_token [x; y] [z; w])).
Proof.
  intros Hx Hy Hz Hw Hle Hv.
  assert (N4 : numeral [x; y; z; w]) by (split; [discriminate|]; auto).
  assert (Na : numeral [x; y]) by (split; [discriminate|]; auto).
  assert (Nb : numeral [z; w]) by (split; [discriminate|]; auto).
  destruct (int_halves [x; y; z; w] 2 (proj2 N4) ltac:(simpl; lia)) as [E1 E2].
  cbn [List.length Nat.sub slice_to slice_from firstn skipn] in E1, E2.
  change (10 ^ Z.of_nat 2) with 100 in E1, E2.
  pose proof (int_bound _ (proj2 N4)) as B4.
  change (10 ^ len [x; y; z; w]) with 10000 in B4.
  pose proof (int_bound _ (proj2 Na)) as Ba.
  change (10 ^ len [x; y]) with 100 in Ba.
  rewrite parse_salary_fused_token by assumption.
  destruct (fused_bounds_spec (int [x; y; z; w])) as (_ & H2 & _).
  rewrite H2 by lia.
  rewrite parse_salary_hyphen_token, unit_convert_ints by assumption.
  replace (1000 <? int [x; y]) with false by (symmetry; apply Z.ltb_ge; lia).
  now rewrite E1, E2.
Qed.

(** C3 at ["2140K"] and ["21-40K"]. *)
Lemma fused_equals_hyphenated_2140 :
  int (u "21") <= int (u "40") /\
  200 < int (u "2140") /\
  _parse_salary (Str (u "2140K")) = _parse_salary (Str (u "21-40K")).
Proof.
  split; [vm_compute; discriminate|]. split; [reflexivity|].
  apply (fused_equals_hyphenated 50 49 52 48)%N; try reflexivity.
  vm_compute; discriminate.
Defined.

(** C3 as stated fails at ["0150K"]: the halves 01 and 50 satisfy
    01 <= 50 <= 200, the run is read as the single value 150, and the
    hyphenated token ["01-50K"] as the range 1 to 50. *)
Lemma fused_differs_leading_zero :
  int (u "01") <= int (u "50") /\ int (u "50") <= 200 /\
  fused_token (u "0150") = u "0150K" /\
  hyphen_token (u "01") (u "50") = u "01-50K" /\
  _parse_salary (Str (u "0150K"))
  = Some (PyInt 150000, PyInt 150000, PyInt 150000) /\
  _parse_salary (Str (u "01-50K"))
  = Some (PyInt 1000, PyInt 50000, PyInt 25500) /\
  _parse_salary (Str (u "0150K")) <> _parse_salary (Str (u "01-50K")).
Proof. repeat split; vm_compute; discriminate. Qed.

(** ** The OCR-boundary cleaner [clean_salary] *)

Import SpiderFinal.

(** C6, as the code has it.  Take an OCR string whose cleaned form [s] has
    no [<a>-<b>K] pattern and starts with a numeral [num_str] followed by K,
    of three or four digits and of value above 100, so that a split into
    [part1] and [part2] is attempted.  The split is returned only when
    [part1 < part2].  When the check fails the token is discarded if its
    value exceeds 200; if its value is at most 200 (then it is 101 or 200)
    the cleaned string itself is returned, unsplit. *)
Theorem clean_salary_fused (raw s num_str : pystr) :
  raw <> [] ->
  s = keep_key_chars raw ->
  search match_range_k_at s = None ->
  match_fused s = Some num_str ->
  100 < int num_str ->
  (List.length num_str = 3 \/ List.length num_str = 4)%nat ->
  let part1 := slice_to (List.length num_str - 2) num_str in
  let part2 := slice_from (List.length num_str - 2) num_str in
  (int part1 < int part2 ->
   clean_salary (Str raw) = Some (part1 ++ u "-" ++ part2 ++ u "K"))
  /\ (int part2 <= int part1 -> 200 < int num_str ->
      clean_salary (Str raw) = None)
  /\ (int part2 <= int part1 -> int num_str <= 200 ->
      clean_salary (Str raw) = Some s /\
      (int num_str = 101 \/ int num_str = 200)).
Proof.
  intros Hne Hs Hnr Hf Hv Hlen part1 part2.
  assert (Hd : Forall (fun c => isdigit c = true) num_str).
  { unfold match_fused in Hf.
    pose proof (take_while_Forall isdigit s) as T.
    destruct (take_while isdigit s) eqn:E; [discriminate|].
    destruct (drop_while isdigit s) as [|k ?]; [discriminate|].
    destruct (k =? 75)%N; [|discriminate]. now injection Hf as <-. }
  assert (Hc : clean_salary (Str raw)
               = match smart_split num_str with
                 | Some joined => Some joined
                 | None => if int num_str <=? 200 then Some s else None
                 end).
  { unfold clean_salary. destruct raw as [|c cs]; [contradiction|].
    now rewrite <- Hs, Hnr, Hf. }
  assert (Hsp : smart_split num_str = join_if_increasing part1 part2).
  { unfold smart_split.
    replace (int num_str >? 100) with true
      by (symmetry; rewrite Z.gtb_ltb; apply Z.ltb_lt; lia).
    unfold len, part1, part2. destruct Hlen as [-> | ->]; reflexivity. }
  rewrite Hc, Hsp. unfold join_if_increasing.
  change (u "-") with [45%N]. change (u "K") with [75%N].
  split; [|split].
  - intros Hlt.
    now replace (int part1 <? int part2) with true
      by (symmetry; apply Z.ltb_lt; lia).
  - intros Hge Hbig.
    replace (int part1 <? int part2) with false
      by (symmetry; apply Z.ltb_ge; lia).
    now replace (int num_str <=? 200) with false
      by (symmetry; apply Z.leb_gt; lia).
  - intros Hge Hsmall.
    replace (int part1 <? int part2) with false
      by (symmetry; apply Z.ltb_ge; lia).
    replace (int num_str <=? 200) with true
      by (symmetry; apply Z.leb_le; lia).
    split; [reflexivity|].
    destruct (int_halves num_str 2 Hd ltac:(lia)) as [E1 E2].
    change (10 ^ Z.of_nat 2) with 100 in E1, E2.
    fold part1 in E1. fold part2 in E2.
    rewrite E1, E2 in Hge.
    pose proof (Z.div_mod (int num_str) 100 ltac:(lia)).
    pose proof (Z.mod_pos_bound (int num_str) 100 ltac:(lia)).
    assert (int num_str / 100 = 1 \/ int num_str / 100 = 2) by lia.
    lia.
Qed.

(** C6 at ["2040K"] (split), ["4020K"] (discarded) and ["101K"] (kept). *)
Lemma clean_salary_fused_examples :
  clean_salary (Str (u "2040K")) = Some (u "20-40K") /\
  clean_salary (Str (u "4020K")) = None /\
  clean_salary (Str (u "101K")) = Some (u "101K").
Proof.
  split; [|split].
  - apply (clean_salary_fused (u "2040K") (u "2040K") (u "2040"));
      try reflexivity; try discriminate. now right.
  - apply (clean_salary_fused (u "4020K") (u "4020K") (u "4020"));
      try reflexivity; try discriminate. now right.
  - apply (clean_salary_fused (u "101K") (u "101K") (u "101"));
      try reflexivity; try discriminate. now left.
Defined.

(** C6 as stated fails at ["101K"]: its value exceeds 100 and it has three
    digits, so the split into 1 and 01 is attempted; the parts are not
    strictly increasing, and the token is returned instead of discarded. *)
Lemma clean_salary_keeps_101 :
  match_fused (keep_key_chars (u "101K")) = Some (u "101") /\
  100 < int (u "101") /\
  len (u "101") = 3 /\
  int (slice_from 1 (u "101")) <= int (slice_to 1 (u "101")) /\
  smart_split (u "101") = None /\
  clean_salary (Str (u "101K")) = Some (u "101K") /\
  clean_salary (Str (u "101K")) <> None.
Proof. repeat split; vm_compute; discriminate. Qed.

(** The docstring of [clean_salary]. *)
Example clean_salary_docstring :
  clean_salary (Str (u "2040K")) = Some (u "20-40K") /\
  clean_salary (Str (u "15-20K")) = Some (u "15-20K") /\
  clean_salary (Str (u "双休")) = None.
Proof. repeat split. Qed.

(** ** Substrings *)

Lemma startswith_iff p s : startswith p s = true <-> exists post, s = p ++ post.
Proof.
  revert s. induction p as [|c p IH]; intros s; simpl.
  - split; [eauto | reflexivity].
  - destruct s as [|d s].
    + split; [discriminate | intros [post [=]]].
    + rewrite andb_true_iff, N.eqb_eq, IH. split.
      * intros [-> [post ->]]. eauto.
      * intros [post [= -> ->]]. eauto.
Qed.

(** [sub in s] decides whether [sub] occurs in [s]. *)
Lemma contains_iff sub s : contains sub s = true <-> occurs_in sub s.
Proof.
  unfold occurs_in. induction s as [|d s IH].
  - cbn [contains]. rewrite orb_false_r, startswith_iff. split.
    + intros [post E]. exists [], post. exact E.
    + intros (pre & post & E). destruct pre; [eauto | discriminate].
  - cbn [contains]. rewrite orb_true_iff, startswith_iff, IH. split.
    + intros [[post E] | (pre & post & E)].
      * exists [], post. exact E.
      * exists (d :: pre), post. now rewrite E.
    + intros (pre & post & E). destruct pre as [|x pre].
      * left. eauto.
      * right. injection E as _ E. eauto.
Qed.

Lemma contains_false_iff sub s : contains sub s = false <-> ~ occurs_in sub s.
Proof.
  rewrite <- contains_iff. destruct (contains sub s); split; congruence.
Qed.

Lemma occurs_in_infix sub pre s post :
  occurs_in sub s -> occurs_in sub (pre ++ s ++ post).
Proof.
  intros (a & b & ->). exists (pre ++ a), (b ++ post).
  now rewrite <- !app_assoc.
Qed.

Lemma rstrip_prefix l : exists post, l = rstrip l ++ post.
Proof.
  unfold rstrip. exists (rev (take_while isspace (rev l))).
  rewrite <- rev_app_distr, take_drop_while. now rewrite rev_involutive.
Qed.

Lemma lstrip_suffix l : exists pre, l = pre ++ lstrip l.
Proof.
  exists (take_while isspace l). unfold lstrip. now rewrite take_drop_while.
Qed.

(** [line.strip()] is a contiguous part of [line]. *)
Lemma strip_infix l : exists pre post, l = pre ++ strip l ++ post.
Proof.
  destruct (lstrip_suffix l) as [pre E].
  destruct (rstrip_prefix (lstrip l)) as [post F].
  exists pre, post. unfold strip. now rewrite <- F.
Qed.

Lemma occurs_in_strip sub l : occurs_in sub (strip l) -> occurs_in sub l.
Proof.
  intros H. destruct (strip_infix l) as (pre & post & E).
  rewrite E. now apply occurs_in_infix.
Qed.

Lemma drop_while_keeps p k w pre post :
  p k = false ->
  exists pre', drop_while p (pre ++ (k :: w) ++ post) = pre' ++ (k :: w) ++ post.
Proof.
  intros Hk. induction pre as [|c pre [pre' IH]]; simpl.
  - exists []. now rewrite Hk.
  - destruct (p c); [eauto|]. now exists (c :: pre).
Qed.

Lemma strip_keeps w l : solid w = true -> occurs_in w l -> occurs_in w (strip l).
Proof.
  intros Hs (pre & post & ->). unfold solid in Hs.
  destruct w as [|c w]; [discriminate|].
  destruct (rev (c :: w)) as [|d w'] eqn:R; [discriminate|].
  apply andb_true_iff in Hs as [Hc Hd]. apply negb_true_iff in Hc, Hd.
  unfold strip, lstrip, rstrip.
  destruct (drop_while_keeps isspace c w pre post Hc) as [pre' ->].
  rewrite !rev_app_distr, R, <- app_assoc.
  destruct (drop_while_keeps isspace d w' (rev post) (rev pre') Hd) as [post' ->].
  rewrite <- R, !rev_app_distr, !rev_involutive, <- app_assoc.
  now exists pre', (rev post').
Qed.

Lemma hd_split_prefix sep l : exists rest, l = hd [] (split sep l) ++ rest.
Proof.
  induction l as [|c l [rest IH]]; simpl.
  - now exists [].
  - destruct (c =? sep)%N; [now exists (c :: l)|].
    destruct (split sep l) as [|h t]; simpl in *.
    + exists l. reflexivity.
    + exists rest. now rewrite IH at 1.
Qed.

Lemma occurs_in_hd_split sub sep l :
  occurs_in sub (hd [] (split sep l)) -> occurs_in sub l.
Proof.
  intros H. destruct (hd_split_prefix sep l) as [rest E].
  rewrite E. apply (occurs_in_infix sub [] _ rest H).
Qed.

(** ** The location extractor *)

(** Facts on the two tables of the source, checked entry by entry. *)
Lemma city_table city :
  In city target_cities ->
  loop_body city = Some city /\
  forall kw, In kw company_keywords -> contains kw city = false.
Proof.
  revert city. apply Forall_forall.
  assert (H : forallb (fun city =>
      match loop_body city with
      | Some c => str_eqb c city
      | None => false
      end && forallb (fun kw => negb (contains kw city)) company_keywords)
    target_cities = true) by (vm_compute; reflexivity).
  apply Forall_forall. intros city Hin.
  eapply forallb_forall in H; [|exact Hin].
  apply andb_true_iff in H as [H1 H2]. split.
  - destruct (loop_body city) as [c|]; [|discriminate].
    unfold str_eqb in H1. destruct (list_eq_dec N.eq_dec c city); congruence.
  - intros kw Hkw. eapply forallb_forall in H2; [|exact Hkw].
    now apply negb_true_iff.
Qed.

Lemma keyword_table kw : In kw company_keywords -> solid kw = true.
Proof.
  revert kw. apply Forall_forall, Forall_forall.
  intros kw Hin.
  assert (H : forallb solid company_keywords = true) by (vm_compute; reflexivity).
  eapply forallb_forall in H; eauto.
Qed.

Lemma mentions_city_existsb l :
  existsb (fun city => contains city l) target_cities = true <-> mentions_city l.
Proof.
  rewrite existsb_exists. unfold mentions_city.
  split; intros (c & Hc & H); exists c; split; auto; now apply contains_iff.
Qed.

(** A line that names no city is passed over. *)
Lemma scan_line_no_city l : ~ mentions_city l -> scan_line l = None.
Proof.
  intros Hn. unfold scan_line, loop_body.
  destruct (strip l) as [|c r] eqn:E; [reflexivity|]. rewrite <- E.
  assert (Hs : forall part, (occurs_in part (strip l) \/ part = strip l) ->
             existsb (fun city => contains city part) target_cities = false).
  { intros part Hp. destruct (existsb _ _) eqn:X; [|reflexivity].
    apply mentions_city_existsb in X as (city & Hc & Ho). exfalso. apply Hn.
    exists city. split; [assumption|]. apply occurs_in_strip.
    destruct Hp as [(a & b & Hp) | ->]; [|assumption].
    rewrite Hp. now apply occurs_in_infix. }
  unfold dot_rule, city_rule.
  rewrite Hs.
  - destruct (contains _ _).
    + destruct (find _ _) eqn:F; [|reflexivity].
      apply find_some in F as [Hin Hc].
      assert (X : existsb (fun city => contains city (strip l)) target_cities = true)
        by (apply existsb_exists; eauto).
      rewrite Hs in X; [discriminate | now right].
    + destruct (find _ _) eqn:F; [|reflexivity].
      apply find_some in F as [Hin Hc].
      assert (X : existsb (fun city => contains city (strip l)) target_cities = true)
        by (apply existsb_exists; eauto).
      rewrite Hs in X; [discriminate | now right].
  - left. destruct (hd_split_prefix middle_dot (strip l)) as [rest R].
    exists [], rest. exact R.
Qed.

(** A line with a company keyword is passed over, unless the dot rule
    fires on it. *)
Lemma scan_line_company l :
  mentions_company l -> ~ dot_names_city l -> scan_line l = None.
Proof.
  intros (kw & Hkw & Ho) Hdot. unfold scan_line, loop_body.
  destruct (strip l) as [|c r] eqn:E; [reflexivity|]. rewrite <- E.
  assert (Hk : existsb (fun kw => contains kw (strip l)) company_keywords = true).
  { apply existsb_exists. exists kw. split; [assumption|].
    apply contains_iff, strip_keeps; [now apply keyword_table | assumption]. }
  assert (Hd : dot_rule (strip l) = None).
  { unfold dot_rule. destruct (contains [middle_dot] (strip l)) eqn:D; [|reflexivity].
    match goal with |- context [existsb ?f target_cities] =>
      destruct (existsb f target_cities) eqn:X; [|reflexivity]
    end.
    exfalso. apply Hdot. split.
    - apply occurs_in_strip. now apply contains_iff.
    - now apply mentions_city_existsb. }
  rewrite Hd. unfold city_rule.
  destruct (find _ _) as [m|] eqn:F; [|reflexivity].
  rewrite Hk. cbn [negb].
  replace (str_eqb m (strip l)) with false; [now rewrite andb_false_r|].
  symmetry. unfold str_eqb. destruct (list_eq_dec N.eq_dec m (strip l)) as [Em|]; [|reflexivity].
  apply find_some in F as [Hin _].
  destruct (city_table m Hin) as [_ Hno].
  apply existsb_exists in Hk as (kw' & Hin' & Hc').
  rewrite <- Em, Hno in Hc' by assumption. discriminate.
Qed.

(** A line that is a bare city name returns it. *)
Lemma scan_line_bare l city :
  In city target_cities -> strip l = city -> scan_line l = Some city.
Proof.
  intros Hin E. unfold scan_line. rewrite E. now apply city_table.
Qed.

Lemma scan_app_none l1 l2 :
  Forall (fun l => scan_line l = None) l1 -> scan (l1 ++ l2) = scan l2.
Proof.
  induction 1 as [|l l1 Hl _ IH]; simpl; [reflexivity|]. now rewrite Hl.
Qed.

(** C7, as the code has it.  In a block where a line is a bare city name,
    a line below it holds a company keyword, and no other line below the
    bare one names a city, the extractor returns the bare city name:
    provided the dot rule does not fire on the company line, that is, the
    company line has no middle dot with a city named before it. *)
Theorem extract_city_bare_line
  (text : pystr) (above between below : list pystr) (bare company city : pystr) :
  split newline text = above ++ [bare] ++ between ++ [company] ++ below ->
  In city target_cities ->
  strip bare = city ->
  mentions_company company ->
  (forall l, In l between \/ In l below -> ~ mentions_city l) ->
  ~ dot_names_city company ->
  _extract_city_smart (Str text) = city.
Proof.
  intros Hsplit Hcity Hbare Hco Hother Hdot.
  unfold _extract_city_smart. rewrite Hsplit.
  rewrite !rev_app_distr. cbn [rev app]. rewrite <- !app_assoc. cbn [app].
  rewrite scan_app_none.
  2:{ apply Forall_forall. intros l Hl%in_rev.
      apply scan_line_no_city, Hother. now right. }
  cbn [scan]. rewrite scan_line_company by assumption.
  rewrite scan_app_none.
  2:{ apply Forall_forall. intros l Hl%in_rev.
      apply scan_line_no_city, Hother. now left. }
  cbn [scan]. now rewrite (scan_line_bare bare city).
Qed.

(** C7 on a card where the company line has no middle dot. *)
Lemma extract_city_bare_line_sample :
  split newline sample_card
  = [u "数据分析师"] ++ [u "南京"] ++ [u "15-25K"] ++ [u "南京科技公司"]
    ++ [u "3-5年 本科"] /\
  _extract_city_smart (Str sample_card) = u "南京".
Proof.
  split; [reflexivity|].
  apply (extract_city_bare_line sample_card [u "数据分析师"] [u "15-25K"]
           [u "3-5年 本科"] (u "南京") (u "南京科技公司") (u "南京")).
  - reflexivity.
  - left. reflexivity.
  - reflexivity.
  - exists (u "公司"). split; [left; reflexivity|].
    apply contains_iff. reflexivity.
  - intros l [[<-|[]] | [<-|[]]] H%mentions_city_existsb;
      vm_compute in H; discriminate.
  - intros [H%contains_iff _]. vm_compute in H. discriminate.
Defined.

(** C7 as stated fails on the block ["南京"; "南京科技公司·江宁区"]: the
    bare city line stands above the only other line naming a city, which
    holds a company keyword; that line has a middle dot after the city, and
    the extractor returns what precedes the dot. *)
Lemma extract_city_dot_on_company_line :
  split newline (join_lines [u "南京"; u "南京科技公司·江宁区"])
  = [u "南京"; u "南京科技公司·江宁区"] /\
  contains (u "南京") (u "南京科技公司·江宁区") = true /\
  contains (u "公司") (u "南京科技公司·江宁区") = true /\
  _extract_city_smart (Str (join_lines [u "南京"; u "南京科技公司·江宁区"]))
  = u "南京科技公司" /\
  u "南京科技公司" <> u "南京".
Proof. repeat split; vm_compute; discriminate. Qed.

(** The scenario of the specification: the dot rule on the last line. *)
Example extract_city_dot_scenario :
  _extract_city_smart (Str (join_lines [u "ABC科技公司"; u "南京·江宁区"]))
  = u "南京".
Proof. reflexivity. Qed.

(** ** Experience and degree *)

Lemma no_degree_required_iff text :
  no_degree_required text = true <-> no_degree_phrase text.
Proof.
  unfold no_degree_required, no_degree_phrase.
  now rewrite orb_true_iff, andb_true_iff, !contains_iff.
Qed.

(** C8.  The degree code follows a fixed priority chain: the no-degree
    phrase gives 0 whatever else the text holds; otherwise the first of
    doctorate (4), master (3), bachelor (2), associate (1) that occurs
    decides, so doctorate wins over bachelor; with none of them the code
    is 0. *)
Theorem degree_priority_chain (text : pystr) :
  (no_degree_phrase text -> degree_of text = 0) /\
  (~ no_degree_phrase text ->
   (occurs_in (u "博士") text -> degree_of text = 4) /\
   (~ occurs_in (u "博士") text ->
    (occurs_in (u "硕士") text -> degree_of text = 3) /\
    (~ occurs_in (u "硕士") text ->
     (occurs_in (u "本科") text -> degree_of text = 2) /\
     (~ occurs_in (u "本科") text ->
      (occurs_in (u "大专") text -> degree_of text = 1) /\
      (~ occurs_in (u "大专") text -> degree_of text = 0))))).
Proof.
  unfold degree_of, _parse_exp_degree, parse_degree. cbn [snd].
  split.
  - intros H%no_degree_required_iff. now rewrite H.
  - intros H. destruct (no_degree_required text) eqn:E.
    { now apply no_degree_required_iff in E. }
    clear H E.
    repeat match goal with
    | |- _ /\ _ => split
    | |- occurs_in _ _ -> _ => let H := fresh in intros H%contains_iff; rewrite H
    | |- ~ occurs_in _ _ -> _ =>
        let H := fresh in intros H%contains_false_iff; rewrite H
    end; reflexivity.
Qed.

(** C8 on two texts: doctorate over bachelor, and the phrase over both. *)
Example degree_priority_examples :
  degree_of (u "博士或本科以上") = 4 /\
  degree_of (u "学历不限，博士本科优先") = 0 /\
  degree_of (u "3-5年经验，本科以上") = 2 /\
  _parse_exp_degree (Str (u "3-5年经验，本科以上")) = (PyFloat 4, 2) /\
  degree_of (u "双休") = 0.
Proof. repeat split. Qed.

(** C10.  A text in which "学历要求" occurs somewhere and "不限" occurs
    somewhere gets the code 0, whatever degree keywords it holds. *)
Theorem degree_requirement_and_unlimited (text : pystr) :
  occurs_in (u "学历要求") text -> occurs_in (u "不限") text ->
  degree_of text = 0.
Proof.
  intros H1 H2. unfold degree_of, _parse_exp_degree, parse_degree. cbn [snd].
  assert (E : no_degree_required text = true).
  { apply no_degree_required_iff. right. now split. }
  now rewrite E.
Qed.

(** C10 on "学历要求：本科，经验不限": bachelor is required, the
    experience is unrestricted, and the code is 0. *)
Lemma degree_requirement_and_unlimited_sample :
  contains (u "本科") (u "学历要求：本科，经验不限") = true /\
  degree_of (u "学历要求：本科，经验不限") = 0.
Proof.
  split; [reflexivity|].
  apply degree_requirement_and_unlimited; apply contains_iff; reflexivity.
Defined.

(** ** The plausibility band *)

Import SalaryPredictor.

Lemma in_band_spec avg :
  in_band avg = true <-> (2000 < to_Q avg < 50000)%Q.
Proof.
  unfold in_band, lt. rewrite andb_true_iff, !gt_spec. cbn [to_Q]. tauto.
Qed.

Lemma avg_salary_finish_row x : avg_salary (finish_row x) = avg_of x.
Proof.
  destruct x as [[r c] [[lo hi] avg]]. unfold finish_row, avg_of.
  now destruct (_parse_exp_degree (raw_text r)).
Qed.

(** Every row [clean_data] returns passed the filter of line 209. *)
Lemma clean_data_in_band df rows r :
  clean_data df = Ok rows -> In r rows -> in_band (avg_salary r) = true.
Proof.
  unfold clean_data. destruct df as [|d df]; [discriminate|].
  destruct (filter _ _) as [|k kept] eqn:F; [discriminate|].
  intros [= <-] Hin.
  change (In r (map finish_row (k :: kept))) in Hin.
  apply in_map_iff in Hin as (x & <- & Hx).
  rewrite avg_salary_finish_row. rewrite <- F in Hx.
  now apply filter_In in Hx as [_ Hx].
Qed.

(** Every row [load_and_preprocess] keeps is a row of the table with a
    degree code above 0 and an average salary below 50000. *)
Lemma load_and_preprocess_keeps table trained r :
  load_and_preprocess table = Ok trained -> In r trained ->
  In r table /\ 0 < degree_value r /\ lt (avg_salary r) (PyInt 50000) = true.
Proof.
  unfold load_and_preprocess.
  destruct (len_rows_lt10 table); [discriminate|].
  destruct (len_rows_lt10 _); [discriminate|].
  intros [= <-] Hin.
  apply filter_In in Hin as [Hin Havg].
  apply filter_In in Hin as [Hin Hdeg].
  repeat split; try assumption. rewrite Z.gtb_ltb in Hdeg. now apply Z.ltb_lt.
Qed.

(** C9, as the code has it.  Every row [clean_data] emits has an average
    salary strictly between 2000 and 50000, so an average of 60000 never
    appears.  The re-validation of [load_and_preprocess] checks the upper
    bound only: from any table it keeps only rows below 50000, and from the
    table of [clean_data] only rows inside the band. *)
Theorem plausibility_band (df : list RawRow) (rows : list CleanRow) :
  clean_data df = Ok rows ->
  (forall r, In r rows -> (2000 < to_Q (avg_salary r) < 50000)%Q)
  /\ (forall r, In r rows -> ~ (to_Q (avg_salary r) == 60000)%Q)
  /\ (forall table trained, load_and_preprocess table = Ok trained ->
      forall r, In r trained ->
      In r table /\ (to_Q (avg_salary r) < 50000)%Q)
  /\ (forall trained, load_and_preprocess rows = Ok trained ->
      forall r, In r trained -> (2000 < to_Q (avg_salary r) < 50000)%Q).
Proof.
  intros Hclean.
  assert (Hband : forall r, In r rows -> (2000 < to_Q (avg_salary r) < 50000)%Q).
  { intros r Hin. eapply in_band_spec, clean_data_in_band; eauto. }
  split; [exact Hband|]. split; [|split].
  - intros r Hin E. apply Hband in Hin as [_ Hin].
    rewrite E in Hin. discriminate Hin.
  - intros table trained Hload r Hin.
    destruct (load_and_preprocess_keeps _ _ _ Hload Hin) as (Ht & _ & Hlt).
    split; [assumption|]. unfold lt in Hlt. now apply gt_spec in Hlt.
  - intros trained Hload r Hin.
    destruct (load_and_preprocess_keeps _ _ _ Hload Hin) as (Ht & _).
    now apply Hband.
Qed.

(** C9 on two listings: the one at 15-25K is emitted with the average
    20000, the one at 50-70K (average 60000) is dropped. *)
Lemma plausibility_band_sample :
  _parse_salary (Str (u "50-70K"))
  = Some (PyInt 50000, PyInt 70000, PyInt 60000) /\
  clean_data sample_listings = Ok [sample_clean_row] /\
  (2000 < to_Q (avg_salary sample_clean_row) < 50000)%Q.
Proof.
  split; [reflexivity|]. split; [reflexivity|].
  apply (proj1 (plausibility_band sample_listings [sample_clean_row] eq_refl)).
  left. reflexivity.
Defined.

(** C9 as stated fails at the second checkpoint: a table of ten rows with
    an average salary of 1500, below the band, passes
    [load_and_preprocess] unchanged. *)
Lemma retraining_keeps_low_salary :
  (to_Q (avg_salary low_paid_row) <= 2000)%Q /\
  in_band (avg_salary low_paid_row) = false /\
  load_and_preprocess (repeat low_paid_row 10) = Ok (repeat low_paid_row 10) /\
  In low_paid_row (repeat low_paid_row 10).
Proof.
  split; [vm_compute; discriminate|]. split; [reflexivity|].
  split; [reflexivity|]. left. reflexivity.
Qed.

(** * Further properties of the code *)

Import DataExporter VerifyFix.

(** ** [_parse_salary]: what it returns and what it refuses *)


Lemma to_Q_add x y : (to_Q (add x y) == to_Q x + to_Q y)%Q.
Proof.
  destruct x as [a|p], y as [b|q]; cbn [add to_Q];
    try apply Qred_correct. now rewrite inject_Z_plus.
Qed.

Lemma to_Q_truediv x d :
  (to_Q (truediv x d) == to_Q x / inject_Z (Zpos d))%Q.
Proof. unfold truediv. cbn [to_Q]. apply Qred_correct. Qed.

Lemma search_some {A} (match_at : pystr -> option A) s r :
  search match_at s = Some r ->
  exists pre s', s = pre ++ s' /\ match_at s' = Some r.
Proof.
  induction s as [|c s IH]; simpl.
  - destruct (match_at []) eqn:E; [|discriminate].
    intros [= <-]. now exists [], [].
  - destruct (match_at (c :: s)) eqn:E.
    + intros [= <-]. now exists [], (c :: s).
    + intros H. destruct (IH H) as (pre & s' & -> & Hm).
      now exists (c :: pre), s'.
Qed.

Lemma search_none {A} (match_at : pystr -> option A) s :
  (forall pre s', s = pre ++ s' -> match_at s' = None) ->
  search match_at s = None.
Proof.
  induction s as [|c s IH]; intros H; simpl.
  - now rewrite (H [] []).
  - rewrite (H [] (c :: s)) by reflexivity. apply IH.
    intros pre s' ->. apply (H (c :: pre)). reflexivity.
Qed.



Lemma Forall_no_digit_take s :
  Forall (fun c => isdigit c = false) s -> take_while isdigit s = [].
Proof. intros H. destruct H as [|c s Hc _]; simpl; [|rewrite Hc]; reflexivity. Qed.

Lemma inject_Z_nonneg z : 0 <= z -> (0 <= inject_Z z)%Q.
Proof. intros H. rewrite Zle_Qle in H. exact H. Qed.




Lemma Forall_drop_while (P : char -> Prop) p s :
  Forall P s -> Forall P (drop_while p s).
Proof.
  induction 1 as [|c s Hc Hs IH]; simpl; [constructor|].
  destruct (p c); [assumption | now constructor].
Qed.

Lemma Forall_strip (P : char -> Prop) s : Forall P s -> Forall P (strip s).
Proof.
  intros H. unfold strip, rstrip, lstrip.
  now apply Forall_rev, Forall_drop_while, Forall_rev, Forall_drop_while.
Qed.

Lemma upper_char_not_digit c : isdigit c = false -> isdigit (upper_char c) = false.
Proof.
  unfold upper_char, islower_ascii, isdigit, in_range.
  destruct (N.leb_spec 97 c), (N.leb_spec c 122); cbn [andb]; try tauto.
  intros _. decide_cmp. reflexivity.
Qed.

Lemma Forall_upper_not_digit s :
  Forall (fun c => isdigit c = false) s ->
  Forall (fun c => isdigit c = false) (upper s).
Proof.
  intros H. unfold upper. apply Forall_map.
  eapply Forall_impl; [|exact H]. apply upper_char_not_digit.
Qed.

Lemma findall_digits_no_digit s :
  Forall (fun c => isdigit c = false) s -> findall_digits s = [].
Proof.
  unfold findall_digits.
  induction 1 as [|c s Hc _ IH]; simpl; [|rewrite Hc]; auto.
Qed.

(** A pattern that starts with [\d+] matches nowhere in a string without
    digits. *)
Lemma search_no_digit {A} (match_at : pystr -> option A) s :
  (forall t, take_while isdigit t = [] -> match_at t = None) ->
  Forall (fun c => isdigit c = false) s ->
  search match_at s = None.
Proof.
  intros Hm Hs. apply search_none. intros pre s' ->.
  apply Forall_app in Hs as [_ Hs]. now apply Hm, Forall_no_digit_take.
Qed.

Lemma match_range_at_needs_digit t :
  take_while isdigit t = [] -> match_range_at t = None.
Proof. intros H. unfold match_range_at. now rewrite H. Qed.

(** X2.  A string without any digit, such as "双休", is rejected. *)
Theorem parse_salary_no_digit (raw : pystr) :
  Forall (fun c => isdigit c = false) raw ->
  _parse_salary (Str raw) = None.
Proof.
  intros H. unfold _parse_salary.
  assert (Hs : Forall (fun c => isdigit c = false) (normalize raw))
    by now apply Forall_strip, Forall_upper_not_digit.
  assert (R : range_match (normalize raw) = None).
  { unfold range_match. destruct (contains _ _); [|reflexivity].
    apply search_no_digit; [apply match_range_at_needs_digit | assumption]. }
  now rewrite R, findall_digits_no_digit.
Qed.

Lemma parse_salary_no_digit_rest_days :
  Forall (fun c => isdigit c = false) (u "双休") /\
  _parse_salary (Str (u "双休")) = None.
Proof.
  assert (H : Forall (fun c => isdigit c = false) (u "双休"))
    by (repeat constructor).
  split; [exact H|]. exact (parse_salary_no_digit (u "双休") H).
Defined.

(** X3.  A single number of at most 200 followed by K is a single-point
    estimate: both bounds and the mean are that number of thousands. *)
Theorem parse_salary_single_value (ds : pystr) :
  numeral ds -> int ds <= 200 ->
  _parse_salary (Str (fused_token ds))
  = Some (PyInt (int ds * 1000), PyInt (int ds * 1000), PyInt (int ds * 1000)).
Proof.
  intros Hd Hv. rewrite parse_salary_fused_token by assumption.
  destruct (fused_bounds_spec (int ds)) as (S1 & _). rewrite S1 by assumption.
  pose proof (int_bound ds (proj2 Hd)) as [Hn _].
  rewrite guard_and_emit_ints by assumption.
  rewrite Z.min_id, Z.max_id. unfold triple_of.
  now replace ((int ds + int ds) * 500) with (int ds * 1000) by lia.
Qed.

Lemma parse_salary_single_value_30 :
  int (u "30") <= 200 /\
  _parse_salary (Str (u "30K")) = Some (PyInt 30000, PyInt 30000, PyInt 30000).
Proof.
  split; [vm_compute; discriminate|].
  apply (parse_salary_single_value (u "30")).
  - split; [discriminate | repeat constructor].
  - vm_compute; discriminate.
Defined.

Lemma guard_and_emit_sym a b :
  guard_and_emit (PyInt a) (PyInt b) = guard_and_emit (PyInt b) (PyInt a).
Proof.
  unfold guard_and_emit, gt. rewrite (orb_comm (200 <? a)).
  destruct (_ || _); [reflexivity|].
  destruct (Z.ltb_spec b a), (Z.ltb_spec a b); try reflexivity; try lia.
  now replace a with b by lia.
Qed.

(** X4.  When neither integer exceeds 1000, the order in which a range is
    written does not matter: [<a>-<b>K] and [<b>-<a>K] parse alike. *)
Theorem parse_salary_range_order (da db : pystr) :
  numeral da -> numeral db -> int da <= 1000 -> int db <= 1000 ->
  _parse_salary (Str (hyphen_token da db))
  = _parse_salary (Str (hyphen_token db da)).
Proof.
  intros Ha Hb La Lb.
  rewrite !parse_salary_hyphen_token, !unit_convert_ints by assumption.
  replace (1000 <? int da) with false by (symmetry; apply Z.ltb_ge; lia).
  replace (1000 <? int db) with false by (symmetry; apply Z.ltb_ge; lia).
  apply guard_and_emit_sym.
Qed.

Lemma parse_salary_range_order_25_15 :
  _parse_salary (Str (u "25-15K")) = _parse_salary (Str (u "15-25K")).
Proof.
  apply (parse_salary_range_order (u "25") (u "15")).
  - split; [discriminate | repeat constructor].
  - split; [discriminate | repeat constructor].
  - vm_compute; discriminate.
  - vm_compute; discriminate.
Defined.

(** Above 1000 the order matters: only the first integer decides the unit. *)
Example parse_salary_range_order_matters :
  _parse_salary (Str (u "2000-500"))
  = Some (PyFloat 500, PyFloat 2000, PyFloat 1250) /\
  _parse_salary (Str (u "500-2000")) = None.
Proof. split; reflexivity. Qed.

(** ** [_extract_city_smart]: what it can return *)

Lemma occurs_in_refl s : occurs_in s s.
Proof. exists [], []. now rewrite app_nil_r. Qed.

Lemma occurs_in_nonempty sub s : sub <> [] -> occurs_in sub s -> s <> [].
Proof.
  intros Hne (pre & post & ->) E.
  apply app_eq_nil in E as [_ E]. now apply app_eq_nil in E as [E _].
Qed.

Lemma target_cities_nonempty city : In city target_cities -> city <> [].
Proof.
  intros Hin.
  assert (H : forallb (fun c => negb (str_eqb c [])) target_cities = true)
    by (vm_compute; reflexivity).
  eapply forallb_forall in H; [|exact Hin].
  intros ->. discriminate H.
Qed.

Lemma mentions_city_nonempty s : mentions_city s -> s <> [].
Proof.
  intros (city & Hin & Ho).
  eapply occurs_in_nonempty; [|exact Ho]. now apply target_cities_nonempty.
Qed.

(** Whatever the loop body returns names a city. *)
Lemma loop_body_some line r : loop_body line = Some r -> mentions_city r.
Proof.
  unfold loop_body. destruct line as [|c l]; [discriminate|].
  unfold dot_rule, city_rule.
  destruct (contains [middle_dot] (c :: l)).
  - match goal with |- context [existsb ?f target_cities] =>
      destruct (existsb f target_cities) eqn:X
    end.
    + intros [= <-]. now apply mentions_city_existsb.
    + destruct (find _ target_cities) as [m|] eqn:F; [|discriminate].
      apply find_some in F as [Hin _]. intros H.
      assert (r = m) as ->.
      { destruct (_ && _); [congruence|]. destruct (negb _); congruence. }
      exists m. split; [assumption | apply occurs_in_refl].
  - destruct (find _ target_cities) as [m|] eqn:F; [|discriminate].
    apply find_some in F as [Hin _]. intros H.
    assert (r = m) as ->.
    { destruct (_ && _); [congruence|]. destruct (negb _); congruence. }
    exists m. split; [assumption | apply occurs_in_refl].
Qed.

Lemma scan_some lines r :
  scan lines = Some r -> exists l, In l lines /\ scan_line l = Some r.
Proof.
  induction lines as [|l lines IH]; simpl; [discriminate|].
  destruct (scan_line l) eqn:E.
  - intros [= <-]. eauto.
  - intros H. destruct (IH H) as (l' & Hin & Hl). eauto.
Qed.

(** X5.  The extractor never returns the empty string: its result is
    "未知" or a text that names one of the known cities. *)
Theorem extract_city_unknown_or_city (raw_text : cell) :
  _extract_city_smart raw_text <> [] /\
  (_extract_city_smart raw_text = unknown \/
   mentions_city (_extract_city_smart raw_text)).
Proof.
  assert (H : _extract_city_smart raw_text = unknown \/
              mentions_city (_extract_city_smart raw_text)).
  { destruct raw_text as [text|]; [|now left]. unfold _extract_city_smart.
    destruct (scan (rev (split newline text))) as [r|] eqn:E; [|now left].
    right. apply scan_some in E as (l & _ & Hl).
    now apply loop_body_some in Hl. }
  split; [|exact H].
  destruct H as [-> | H]; [discriminate | now apply mentions_city_nonempty].
Qed.

Lemma split_infix sep s l :
  In l (split sep s) -> exists pre post, s = pre ++ l ++ post.
Proof.
  revert l. induction s as [|c s IH]; intros l; simpl.
  - intros [<-|[]]. now exists [], [].
  - destruct (c =? sep)%N.
    + intros [<-|H].
      * now exists [], (c :: s).
      * destruct (IH l H) as (pre & post & ->). now exists (c :: pre), post.
    + destruct (split sep s) as [|h t] eqn:E.
      * intros [<-|[]]. exists [], s. reflexivity.
      * intros [<-|H].
        -- destruct (IH h (or_introl eq_refl)) as (pre & post & Hs).
           destruct (hd_split_prefix sep s) as [rest R]. rewrite E in R.
           exists [], rest. cbn [app hd] in *. now rewrite R at 1.
        -- destruct (IH l (or_intror H)) as (pre & post & ->).
           now exists (c :: pre), post.
Qed.

(** X6.  A text in which no known city occurs yields "未知". *)
Theorem extract_city_no_city (text : pystr) :
  ~ mentions_city text -> _extract_city_smart (Str text) = unknown.
Proof.
  intros Hn. unfold _extract_city_smart.
  replace (scan (rev (split newline text))) with (@None pystr); [reflexivity|].
  symmetry. rewrite <- (app_nil_r (rev _)). rewrite scan_app_none; [reflexivity|].
  apply Forall_forall. intros l Hl%in_rev. apply scan_line_no_city.
  intros (city & Hin & Ho). apply Hn. exists city. split; [assumption|].
  destruct (split_infix _ _ _ Hl) as (pre & post & ->).
  now apply occurs_in_infix.
Qed.

Lemma extract_city_no_city_sample :
  _extract_city_smart (Str (u "数据分析师 五险一金")) = u "未知".
Proof.
  apply (extract_city_no_city (u "数据分析师 五险一金")).
  intros H%mentions_city_existsb. vm_compute in H. discriminate.
Defined.

Lemma scan_line_dot l : dot_names_city l -> scan_line l = Some (before_dot l).
Proof.
  intros [Hdot Hcity]. unfold scan_line, loop_body, before_dot in *.
  assert (D : contains [middle_dot] (strip l) = true).
  { apply contains_iff, strip_keeps; [reflexivity | assumption]. }
  destruct (strip l) as [|c r] eqn:E; [discriminate|]. rewrite <- E in *.
  unfold dot_rule. rewrite D.
  apply mentions_city_existsb in Hcity. now rewrite Hcity.
Qed.

(** X7.  The lowest line that names a city decides.  When it is of the form
    [<place>·<rest>] with a city named before the dot, the extractor
    returns what stands before the dot, whatever the lines above hold. *)
Theorem extract_city_dot_line
  (text : pystr) (above below : list pystr) (line : pystr) :
  split newline text = above ++ [line] ++ below ->
  (forall l, In l below -> ~ mentions_city l) ->
  dot_names_city line ->
  _extract_city_smart (Str text) = before_dot line.
Proof.
  intros Hsplit Hbelow Hdot. unfold _extract_city_smart. rewrite Hsplit.
  rewrite !rev_app_distr. cbn [rev app]. rewrite <- app_assoc.
  rewrite scan_app_none.
  - cbn [app scan]. now rewrite scan_line_dot.
  - apply Forall_forall. intros l Hl%in_rev. now apply scan_line_no_city, Hbelow.
Qed.

Lemma extract_city_dot_line_sample :
  _extract_city_smart
    (Str (join_lines [u "北京银行"; u "上海·浦东新区"; u "五险一金"]))
  = u "上海".
Proof.
  apply (extract_city_dot_line _ [u "北京银行"] [u "五险一金"] (u "上海·浦东新区")).
  - reflexivity.
  - intros l [<-|[]] H%mentions_city_existsb. vm_compute in H. discriminate.
  - split.
    + apply contains_iff. reflexivity.
    + apply mentions_city_existsb. reflexivity.
Defined.

(** ** [_parse_exp_degree]: ranges of its results *)

Lemma match_year_range_at_digits s g1 g2 :
  match_year_range_at s = Some (g1, g2) -> 0 <= int g1 /\ 0 <= int g2.
Proof.
  unfold match_year_range_at.
  pose proof (take_while_Forall isdigit s) as H1.
  destruct (take_while isdigit s) as [|a g] eqn:E; [discriminate|].
  destruct (drop_while isdigit s) as [|c s2]; [discriminate|].
  destruct (c =? 45)%N; [|discriminate].
  pose proof (take_while_Forall isdigit s2) as H2.
  destruct (take_while isdigit s2); [discriminate|].
  destruct (startswith nian _); [|discriminate].
  intros [= <- <-]. split; now apply int_bound.
Qed.

Lemma match_years_at_digits s g : match_years_at s = Some g -> 0 <= int g.
Proof.
  unfold match_years_at.
  pose proof (take_while_Forall isdigit s) as H.
  destruct (take_while isdigit s) as [|a g'] eqn:E; [discriminate|].
  destruct (startswith nian _); [|discriminate].
  intros [= <-]. now apply int_bound.
Qed.

Lemma parse_exp_nonneg text : (0 <= to_Q (parse_exp text))%Q.
Proof.
  unfold parse_exp.
  destruct (search match_year_range_at text) as [[g1 g2]|] eqn:R.
  - apply search_some in R as (_ & s' & _ & [H1 H2]%match_year_range_at_digits).
    rewrite to_Q_truediv, to_Q_add. unfold float. cbn [to_Q].
    apply inject_Z_nonneg in H1, H2.
    apply Qle_shift_div_l; [reflexivity | lra].
  - destruct (_ || _); [cbn [to_Q]; discriminate|].
    destruct (search match_years_at text) as [g|] eqn:Y;
      [|cbn [to_Q]; discriminate].
    apply search_some in Y as (_ & s' & _ & H%match_years_at_digits).
    unfold float. cbn [to_Q]. now apply inject_Z_nonneg.
Qed.

Lemma parse_degree_range text : 0 <= parse_degree text <= 4.
Proof.
  unfold parse_degree.
  repeat match goal with |- context [if ?b then _ else _] => destruct b end; lia.
Qed.

(** X8.  Whatever the cell holds, the experience is never negative and the
    degree code is one of 0, 1, 2, 3, 4. *)
Theorem parse_exp_degree_ranges (text : cell) :
  (0 <= to_Q (fst (_parse_exp_degree text)))%Q /\
  0 <= snd (_parse_exp_degree text) <= 4.
Proof.
  destruct text as [s|]; cbn [_parse_exp_degree fst snd].
  - split; [apply parse_exp_nonneg | apply parse_degree_range].
  - split; [cbn [to_Q]; discriminate | lia].
Qed.

Lemma search_skip_no_digit {A} (match_at : pystr -> option A) pre s :
  (forall t, take_while isdigit t = [] -> match_at t = None) ->
  Forall (fun c => isdigit c = false) pre ->
  search match_at (pre ++ s) = search match_at s.
Proof.
  intros Hm. induction 1 as [|c pre Hc _ IH]; [reflexivity|].
  cbn [app search]. rewrite Hm; [exact IH|]. simpl. now rewrite Hc.
Qed.

Lemma match_year_range_at_here da db post :
  numeral da -> numeral db ->
  match_year_range_at (da ++ u "-" ++ db ++ nian ++ post) = Some (da, db).
Proof.
  intros [Ha Hda] [Hb Hdb]. unfold match_year_range_at.
  change (u "-") with [45%N]. change nian with [24180%N]. cbn [app].
  rewrite take_while_app, drop_while_app by (assumption || reflexivity).
  destruct da as [|a da']; [contradiction|].
  cbn [N.eqb Pos.eqb].
  rewrite take_while_app, drop_while_app by (assumption || reflexivity).
  destruct db as [|b db']; [contradiction|].
  cbn [startswith N.eqb Pos.eqb andb]. reflexivity.
Qed.

(** X9.  A range of years [<a>-<b>年] that no digit precedes gives the
    mean of [a] and [b], whatever else the text holds, graduate wording
    included. *)
Theorem parse_exp_year_range (pre da db post : pystr) :
  Forall (fun c => isdigit c = false) pre -> numeral da -> numeral db ->
  (to_Q (fst (_parse_exp_degree
                (Str (pre ++ da ++ u "-" ++ db ++ u "年" ++ post))))
   == (inject_Z (int da) + inject_Z (int db)) / 2)%Q.
Proof.
  intros Hpre Ha Hb. cbn [_parse_exp_degree fst]. unfold parse_exp.
  change (u "年") with nian.
  rewrite search_skip_no_digit; [| |assumption].
  - rewrite (search_here _ _ (da, db)) by now apply match_year_range_at_here.
    rewrite to_Q_truediv, to_Q_add. unfold float. cbn [to_Q]. reflexivity.
  - intros t Ht. unfold match_year_range_at. now rewrite Ht.
Qed.

Lemma parse_exp_year_range_sample :
  _parse_exp_degree (Str (u "应届可投，经验3-5年")) = (PyFloat 4, 0) /\
  (to_Q (PyFloat 4) == (inject_Z 3 + inject_Z 5) / 2)%Q.
Proof.
  split; [reflexivity|].
  apply (parse_exp_year_range (u "应届可投，经验") (u "3") (u "5") []).
  - repeat constructor.
  - split; [discriminate | repeat constructor].
  - split; [discriminate | repeat constructor].
Defined.

(** ** [feature_engineering]: the skill flags *)

Lemma feature_engineering_row df fr :
  In fr (feature_engineering df) ->
  has_columns fr = map (has_column (text_data (cleaned fr))) skills.
Proof.
  unfold feature_engineering. intros (r & <- & _)%in_map_iff. reflexivity.
Qed.

(** X10.  A row whose title or whose description is missing gets no skill
    flag at all, whatever the other field holds. *)
Theorem feature_engineering_missing_field (df : list CleanRow) (fr : FeatureRow) :
  In fr (feature_engineering df) ->
  title (source (cleaned fr)) = Missing \/
  raw_text (source (cleaned fr)) = Missing ->
  forall col, In col (has_columns fr) -> snd col = 0.
Proof.
  intros Hin Hmiss col Hcol. rewrite (feature_engineering_row df fr Hin) in Hcol.
  assert (T : text_data (cleaned fr) = []).
  { unfold text_data. destruct Hmiss as [-> | ->]; [reflexivity|].
    now destruct (title _). }
  rewrite T in Hcol.
  assert (H : forallb (fun col => snd col =? 0) (map (has_column []) skills) = true)
    by (vm_compute; reflexivity).
  eapply forallb_forall in H; [|exact Hcol]. now apply Z.eqb_eq.
Qed.

Lemma lower_app a b : lower (a ++ b) = lower a ++ lower b.
Proof. apply map_app. Qed.

(** X11.  When both fields are present, a skill that occurs in the title
    or in the description, in any mix of upper and lower case, sets its
    flag to 1. *)
Theorem feature_engineering_skill_found
  (df : list CleanRow) (fr : FeatureRow) (t x skill : pystr) :
  In fr (feature_engineering df) ->
  title (source (cleaned fr)) = Str t ->
  raw_text (source (cleaned fr)) = Str x ->
  In skill skills ->
  occurs_in (lower skill) (lower t) \/ occurs_in (lower skill) (lower x) ->
  In (u "has_" ++ skill, 1) (has_columns fr).
Proof.
  intros Hin Ht Hx Hskill Hocc. rewrite (feature_engineering_row df fr Hin).
  apply in_map_iff. exists skill. split; [|assumption].
  unfold has_column, text_data. rewrite Ht, Hx, !lower_app.
  replace (contains (lower skill) _) with true; [reflexivity|].
  symmetry. apply contains_iff. destruct Hocc as [H|H].
  - apply (occurs_in_infix _ [] (lower t) _ H).
  - rewrite app_assoc. rewrite <- (app_nil_r (lower x)).
    now apply occurs_in_infix.
Qed.

(** ** [clean_salary]: what it keeps and what it discards *)

Lemma key_char_upper c : key_char c = true -> key_char (upper_char c) = true.
Proof.
  unfold upper_char. destruct (islower_ascii c) eqn:L; [|auto]. intros _.
  unfold islower_ascii, in_range in L.
  apply andb_true_iff in L as [L1%N.leb_le L2%N.leb_le].
  unfold key_char, isalnum, isdigit, isupper_ascii, islower_ascii, is_cjk, in_range.
  decide_cmp. reflexivity.
Qed.

Lemma upper_char_idem c : upper_char (upper_char c) = upper_char c.
Proof.
  unfold upper_char at 2. destruct (islower_ascii c) eqn:L; [|unfold upper_char; now rewrite L].
  unfold islower_ascii, in_range in L.
  apply andb_true_iff in L as [L1%N.leb_le L2%N.leb_le].
  unfold upper_char, islower_ascii, in_range. decide_cmp. reflexivity.
Qed.

Lemma keep_key_chars_fixed s :
  Forall (fun c => key_char c = true /\ upper_char c = c) s ->
  keep_key_chars s = s.
Proof.
  unfold keep_key_chars, upper.
  induction 1 as [|c s [Hk Hu] _ IH]; [reflexivity|].
  cbn [filter]. fold (key_char c). rewrite Hk. cbn [map]. now rewrite Hu, IH.
Qed.

Lemma keep_key_chars_idem raw :
  keep_key_chars (keep_key_chars raw) = keep_key_chars raw.
Proof.
  apply keep_key_chars_fixed. unfold keep_key_chars, upper.
  apply Forall_map, Forall_forall. intros c [_ Hc]%filter_In.
  split; [now apply key_char_upper | apply upper_char_idem].
Qed.

Lemma digit_key_char c :
  isdigit c = true -> key_char c = true /\ upper_char c = c.
Proof.
  intros H. split; [|now apply digit_not_lower].
  unfold key_char, isalnum. now rewrite H.
Qed.

(** The text [<a>-<b>K], for the cleaner as for the parser. *)
Lemma hyphen_token_key_chars da db :
  numeral da -> numeral db ->
  keep_key_chars (hyphen_token da db) = hyphen_token da db.
Proof.
  intros [_ Ha] [_ Hb]. apply keep_key_chars_fixed. unfold hyphen_token.
  change (u "-") with [45%N]. change (u "K") with [75%N].
  repeat (apply Forall_app; split);
    try (eapply Forall_impl; [|eassumption]; apply digit_key_char);
    repeat constructor.
Qed.

Lemma match_range_k_at_hyphen da db rest :
  numeral da -> numeral db ->
  match_range_k_at (da ++ 45%N :: db ++ 75%N :: rest)
  = Some (hyphen_token da db).
Proof.
  intros [Ha Hda] [Hb Hdb]. unfold match_range_k_at.
  rewrite take_while_app, drop_while_app by (assumption || reflexivity).
  destruct da as [|a da']; [contradiction|].
  cbn [N.eqb Pos.eqb].
  rewrite take_while_app, drop_while_app by (assumption || reflexivity).
  destruct db as [|b db']; [contradiction|].
  cbn [N.eqb Pos.eqb]. reflexivity.
Qed.

Lemma match_range_k_at_shape s m :
  match_range_k_at s = Some m ->
  exists da db, numeral da /\ numeral db /\ m = hyphen_token da db.
Proof.
  unfold match_range_k_at.
  pose proof (take_while_Forall isdigit s) as H1.
  destruct (take_while isdigit s) as [|a g1] eqn:E1; [discriminate|].
  destruct (drop_while isdigit s) as [|c s2]; [discriminate|].
  destruct (c =? 45)%N; [|discriminate].
  pose proof (take_while_Forall isdigit s2) as H2.
  destruct (take_while isdigit s2) as [|b g2] eqn:E2; [discriminate|].
  destruct (drop_while isdigit s2) as [|k ?]; [discriminate|].
  destruct (k =? 75)%N; [|discriminate].
  intros [= <-]. exists (a :: g1), (b :: g2).
  repeat split; try discriminate; assumption.
Qed.

(** On [<a>-<b>K] the cleaner returns the text unchanged. *)
Lemma clean_salary_hyphen_token da db :
  numeral da -> numeral db ->
  clean_salary (Str (hyphen_token da db)) = Some (hyphen_token da db).
Proof.
  intros Ha Hb. unfold clean_salary.
  destruct (hyphen_token da db) as [|c cs] eqn:E.
  { destruct (numeral_cons _ Ha) as (a & r & -> & _). discriminate E. }
  rewrite <- E. rewrite hyphen_token_key_chars by assumption.
  rewrite (search_here _ _ (hyphen_token da db)); [reflexivity|].
  unfold hyphen_token at 1. change (u "-") with [45%N]. change (u "K") with [75%N].
  now apply match_range_k_at_hyphen.
Qed.

Lemma match_fused_digits s num_str :
  match_fused s = Some num_str -> numeral num_str /\ s <> [].
Proof.
  unfold match_fused.
  pose proof (take_while_Forall isdigit s) as T.
  destruct (take_while isdigit s) as [|a g] eqn:E; [discriminate|].
  destruct (drop_while isdigit s) as [|k ?]; [discriminate|].
  destruct (k =? 75)%N; [|discriminate]. intros [= <-].
  split; [split; [discriminate | assumption]|].
  intros ->. discriminate E.
Qed.

Lemma smart_split_shape num_str joined :
  numeral num_str -> smart_split num_str = Some joined ->
  exists p1 p2, numeral p1 /\ numeral p2 /\ joined = hyphen_token p1 p2.
Proof.
  intros [_ Hd]. unfold smart_split, join_if_increasing, len.
  destruct (int num_str >? 100); [|discriminate].
  assert (Hparts : forall k, (0 < k < List.length num_str)%nat ->
            numeral (slice_to k num_str) /\ numeral (slice_from k num_str)).
  { intros k Hk. rewrite <- (firstn_skipn k num_str) in Hd.
    apply Forall_app in Hd as [D1 D2]. unfold slice_to, slice_from.
    split; (split; [|assumption]); intros E; apply (f_equal (@List.length _)) in E;
      [rewrite length_firstn in E | rewrite length_skipn in E]; simpl in E; lia. }
  destruct (Z.eqb_spec (Z.of_nat (List.length num_str)) 4) as [L|_].
  - destruct (Hparts 2%nat ltac:(lia)) as [N1 N2].
    destruct (_ <? _); [|discriminate]. intros [= <-]. eauto.
  - destruct (Z.eqb_spec (Z.of_nat (List.length num_str)) 3) as [L|_]; [|discriminate].
    destruct (Hparts 1%nat ltac:(lia)) as [N1 N2].
    destruct (_ <? _); [|discriminate]. intros [= <-]. eauto.
Qed.

(** X12.  The cleaner is idempotent: a string it returns is returned
    unchanged when cleaned again. *)
Theorem clean_salary_idempotent (raw_str : cell) (out : pystr) :
  clean_salary raw_str = Some out -> clean_salary (Str out) = Some out.
Proof.
  unfold clean_salary at 1. destruct raw_str as [[|c cs]|]; try discriminate.
  remember (keep_key_chars (c :: cs)) as s eqn:Es.
  destruct (search match_range_k_at s) as [m|] eqn:R.
  - intros [= <-].
    apply search_some in R as (_ & s' & _ & (da & db & Ha & Hb & ->)%match_range_k_at_shape).
    now apply clean_salary_hyphen_token.
  - destruct (match_fused s) as [num_str|] eqn:F; [|discriminate].
    destruct (match_fused_digits _ _ F) as [Hn Hs].
    destruct (smart_split num_str) as [joined|] eqn:S.
    + intros [= <-].
      destruct (smart_split_shape _ _ Hn S) as (p1 & p2 & N1 & N2 & ->).
      now apply clean_salary_hyphen_token.
    + destruct (int num_str <=? 200) eqn:V; [|discriminate]. intros [= <-].
      assert (K : keep_key_chars s = s)
        by (rewrite Es; apply keep_key_chars_idem).
      unfold clean_salary. destruct s as [|x xs]; [contradiction|].
      now rewrite K, R, F, S, V.
Qed.

Lemma clean_salary_idempotent_sample :
  clean_salary (Str (u " 20 40k ")) = Some (u "20-40K") /\
  clean_salary (Str (u "20-40K")) = Some (u "20-40K").
Proof.
  split; [reflexivity|].
  exact (clean_salary_idempotent (Str (u " 20 40k ")) (u "20-40K") eq_refl).
Defined.

Lemma key_chars_no_digit raw :
  Forall (fun c => isdigit c = false) raw ->
  Forall (fun c => isdigit c = false) (keep_key_chars raw).
Proof.
  intros H. unfold keep_key_chars. apply Forall_upper_not_digit.
  apply Forall_forall. intros c [Hc _]%filter_In.
  revert c Hc. now apply Forall_forall.
Qed.

(** X13.  A string without any digit, such as "双休绩效", is discarded. *)
Theorem clean_salary_no_digit (raw : pystr) :
  Forall (fun c => isdigit c = false) raw -> clean_salary (Str raw) = None.
Proof.
  intros H. unfold clean_salary. destruct raw as [|c cs]; [reflexivity|].
  apply key_chars_no_digit in H.
  rewrite search_no_digit; [| |assumption].
  - unfold match_fused. destruct (keep_key_chars (c :: cs)) as [|x xs]; [reflexivity|].
    apply Forall_inv in H. simpl. now rewrite H.
  - intros t Ht. unfold match_range_k_at. now rewrite Ht.
Qed.

Lemma clean_salary_no_digit_sample :
  clean_salary (Str (u "双休绩效")) = None.
Proof. apply (clean_salary_no_digit (u "双休绩效")). repeat constructor. Defined.

Lemma search_range_k_fused ds :
  Forall (fun c => isdigit c = true) ds ->
  search match_range_k_at (fused_token ds) = None.
Proof.
  intros Hd. apply search_none. intros pre s' E.
  unfold fused_token in E. change (u "K") with [75%N] in E.
  assert (S : (exists d, s' = d ++ [75%N] /\ Forall (fun c => isdigit c = true) d)
              \/ s' = []).
  { clear - E Hd. revert ds E Hd. induction pre as [|p pre IH]; intros ds E Hd.
    - left. exists ds. split; [symmetry; exact E | assumption].
    - destruct ds as [|d ds]; cbn [app] in E.
      + injection E as _ E. symmetry in E.
        apply app_eq_nil in E as [_ ->]. now right.
      + injection E as _ E. apply (IH ds E). now inversion Hd. }
  unfold match_range_k_at. destruct S as [(d & -> & Dd) | ->]; [|reflexivity].
  rewrite take_while_app, drop_while_app by (assumption || reflexivity).
  now destruct d.
Qed.

Lemma match_fused_token ds : numeral ds -> match_fused (fused_token ds) = Some ds.
Proof.
  intros [Hne Hd]. unfold match_fused, fused_token. change (u "K") with [75%N].
  rewrite take_while_app, drop_while_app by (assumption || reflexivity).
  now destruct ds.
Qed.

Lemma fused_token_key_chars ds :
  numeral ds -> keep_key_chars (fused_token ds) = fused_token ds.
Proof.
  intros [_ Hd]. apply keep_key_chars_fixed. unfold fused_token.
  change (u "K") with [75%N]. apply Forall_app. split.
  - eapply Forall_impl; [|exact Hd]. apply digit_key_char.
  - repeat constructor.
Qed.

(** X14.  The cleaner and the parser in a row.  A fused OCR token of three
    or four digits, of value above 100, whose two parts are strictly
    increasing is rewritten by the cleaner as [<part1>-<part2>K], which the
    pipeline's parser reads as the range from [part1] to [part2]; when the
    value of the token exceeds 200, that is also what the parser reads in
    the token itself. *)
Theorem clean_then_parse_fused (ds : pystr) :
  numeral ds ->
  (List.length ds = 3 \/ List.length ds = 4)%nat ->
  100 < int ds ->
  int (slice_to (List.length ds - 2) ds)
  < int (slice_from (List.length ds - 2) ds) ->
  clean_salary (Str (fused_token ds))
  = Some (hyphen_token (slice_to (List.length ds - 2) ds)
                       (slice_from (List.length ds - 2) ds))
  /\ _parse_salary
       (Str (hyphen_token (slice_to (List.length ds - 2) ds)
                          (slice_from (List.length ds - 2) ds)))
     = Some (triple_of (int (slice_to (List.length ds - 2) ds))
                       (int (slice_from (List.length ds - 2) ds)))
  /\ (200 < int ds ->
      _parse_salary (Str (fused_token ds))
      = Some (triple_of (int (slice_to (List.length ds - 2) ds))
                        (int (slice_from (List.length ds - 2) ds)))).
Proof.
  intros Hn Hlen Hv Hlt.
  set (p1 := slice_to (List.length ds - 2) ds) in *.
  set (p2 := slice_from (List.length ds - 2) ds) in *.
  assert (Hd := proj2 Hn).
  assert (N1 : numeral p1 /\ numeral p2).
  { rewrite <- (firstn_skipn (List.length ds - 2) ds) in Hd.
    apply Forall_app in Hd as [D1 D2]. unfold p1, p2, slice_to, slice_from.
    split; (split; [|assumption]); intros E; apply (f_equal (@List.length _)) in E;
      [rewrite length_firstn in E | rewrite length_skipn in E]; simpl in E; lia. }
  destruct N1 as [N1 N2].
  destruct (int_halves ds 2 Hd ltac:(lia)) as [E1 E2].
  fold p1 in E1. fold p2 in E2. change (10 ^ Z.of_nat 2) with 100 in E1, E2.
  pose proof (int_bound ds Hd) as [B0 _].
  pose proof (Z.mod_pos_bound (int ds) 100 ltac:(lia)) as M.
  assert (P : _parse_salary (Str (hyphen_token p1 p2))
              = Some (triple_of (int p1) (int p2))).
  { apply parse_salary_hyphen_small; try assumption; lia. }
  split; [|split].
  - unfold clean_salary. destruct (fused_token ds) as [|c cs] eqn:T.
    { destruct (numeral_cons _ Hn) as (a & r & -> & _). discriminate T. }
    rewrite <- T, fused_token_key_chars, search_range_k_fused, match_fused_token
      by assumption.
    assert (S : smart_split ds = Some (hyphen_token p1 p2)).
    { unfold smart_split, join_if_increasing, len.
      replace (int ds >? 100) with true
        by (symmetry; rewrite Z.gtb_ltb; apply Z.ltb_lt; lia).
      apply Z.ltb_lt in Hlt. clear - Hlt Hlen. unfold p1, p2 in *.
      destruct Hlen as [L|L]; rewrite L in *;
        cbn [Z.of_nat Pos.of_succ_nat Pos.succ Z.eqb Pos.eqb Nat.sub] in *;
        now rewrite Hlt. }
    now rewrite S.
  - exact P.
  - intros Hbig. rewrite parse_salary_fused_token by assumption.
    assert (int ds < 10000).
    { pose proof (int_bound ds Hd) as [_ B]. unfold len in B.
      destruct Hlen as [L|L]; rewrite L in B; simpl in B; lia. }
    destruct (fused_bounds_spec (int ds)) as (_ & S2 & _).
    rewrite S2 by lia. rewrite guard_and_emit_ints by lia.
    rewrite Z.min_l, Z.max_r by lia. now rewrite E1, E2.
Qed.

Lemma clean_then_parse_fused_2040 :
  clean_salary (Str (u "2040K")) = Some (u "20-40K") /\
  _parse_salary (Str (u "20-40K"))
  = Some (PyInt 20000, PyInt 40000, PyInt 30000).
Proof.
  assert (N : numeral (u "2040")) by (split; [discriminate | repeat constructor]).
  destruct (clean_then_parse_fused (u "2040") N (or_intror eq_refl)
              eq_refl eq_refl) as (H1 & H2 & _).
  split; [exact H1 | exact H2].
Defined.

(** Between 100 and 200 the two readings part: the cleaner splits "150K"
    into 1 to 50, the parser reads "150K" itself as the single value 150. *)
Example clean_then_parse_150 :
  clean_salary (Str (u "150K")) = Some (u "1-50K") /\
  _parse_salary (Str (u "1-50K")) = Some (PyInt 1000, PyInt 50000, PyInt 25500) /\
  _parse_salary (Str (u "150K"))
  = Some (PyInt 150000, PyInt 150000, PyInt 150000).
Proof. repeat split. Qed.

(** ** [clean_data] and [run]: which rows come out *)

Lemma finish_row_fields r c lo hi avg :
  finish_row (r, c, (lo, hi, avg))
  = {| source := r; city_clean := c;
       min_salary := lo; max_salary := hi; avg_salary := avg;
       exp_years := fst (_parse_exp_degree (raw_text r));
       degree_value := snd (_parse_exp_degree (raw_text r)) |}.
Proof. unfold finish_row. now destruct (_parse_exp_degree (raw_text r)). Qed.

Lemma with_salary_In df x :
  In x (with_salary df) ->
  exists r feats,
    x = (r, _extract_city_smart (raw_text r), feats) /\ In r df /\
    _parse_salary (salary r) = Some feats.
Proof.
  unfold with_salary. intros (r & Hr & Hx)%in_flat_map.
  destruct (_parse_salary (salary r)) as [feats|] eqn:P; [|contradiction].
  destruct Hx as [<-|[]]. eauto.
Qed.

Lemma kept_sources df :
  map (fun x => source (finish_row x))
      (filter (fun x => in_band (avg_of x)) (with_salary df))
  = filter survives df.
Proof.
  induction df as [|r df IH]; [reflexivity|].
  unfold with_salary in *. cbn [flat_map filter]. rewrite filter_app, map_app, IH.
  unfold survives at 2.
  destruct (_parse_salary (salary r)) as [[[lo hi] avg]|]; [|reflexivity].
  cbn [filter avg_of snd]. destruct (in_band avg); [|reflexivity].
  cbn [map app]. now rewrite finish_row_fields.
Qed.

(** [clean_data] in one piece: the empty input needs no case of its own. *)
Lemma clean_data_kept df :
  clean_data df
  = match filter (fun x => in_band (avg_of x)) (with_salary df) with
    | [] => Raise "ValueError"
    | k :: kept => Ok (map finish_row (k :: kept))
    end.
Proof.
  destruct df as [|r df]; [reflexivity|]. unfold clean_data.
  now destruct (filter _ (with_salary (r :: df))).
Qed.

(** X17.  The rows [clean_data] emits are, in the order of the input, the
    rows that survive, one for one; each carries the triple its own salary
    parses to, the city and the experience and degree extracted from its
    own text. *)
Theorem clean_data_rows (df : list RawRow) (rows : list CleanRow) :
  clean_data df = Ok rows ->
  map source rows = filter survives df /\
  forall row, In row rows ->
    _parse_salary (salary (source row))
    = Some (min_salary row, max_salary row, avg_salary row) /\
    city_clean row = _extract_city_smart (raw_text (source row)) /\
    (exp_years row, degree_value row)
    = _parse_exp_degree (raw_text (source row)).
Proof.
  rewrite clean_data_kept.
  destruct (filter _ (with_salary df)) as [|k kept] eqn:F; [discriminate|].
  intros [= <-].
  change (finish_row k :: map finish_row kept) with (map finish_row (k :: kept)).
  split.
  - rewrite map_map, <- F. apply kept_sources.
  - intros row (x & <- & Hx)%in_map_iff. rewrite <- F in Hx.
    apply filter_In in Hx as [Hx _].
    apply with_salary_In in Hx as (r & [[lo hi] avg] & -> & _ & P).
    rewrite finish_row_fields. cbn [source min_salary max_salary avg_salary
      city_clean exp_years degree_value].
    now rewrite P, <- surjective_pairing.
Qed.

Lemma clean_data_rows_sample :
  clean_data sample_listings = Ok [sample_clean_row] /\
  map source [sample_clean_row] = filter survives sample_listings.
Proof.
  split; [reflexivity|].
  exact (proj1 (clean_data_rows sample_listings [sample_clean_row] eq_refl)).
Defined.

(** X18.  [clean_data] fails, with [ValueError], exactly when no row of
    the input survives; the empty input is one such case. *)
Theorem clean_data_raises (df : list RawRow) :
  clean_data df = Raise "ValueError" <->
  forall r, In r df -> survives r = false.
Proof.
  rewrite clean_data_kept.
  pose proof (kept_sources df) as K.
  destruct (filter _ (with_salary df)) as [|k kept].
  - cbn [map] in K. split; [|reflexivity]. intros _ r Hr.
    destruct (survives r) eqn:S; [|reflexivity].
    assert (In r (filter survives df)) by now apply filter_In.
    rewrite <- K in *. contradiction.
  - split; [discriminate|]. intros H. exfalso.
    assert (Hin : In (source (finish_row k)) (filter survives df))
      by (rewrite <- K; left; reflexivity).
    apply filter_In in Hin as [Hin S]. rewrite (H _ Hin) in S. discriminate.
Qed.

Lemma filter_all {A} (p : A -> bool) l :
  (forall x, In x l -> p x = true) -> filter p l = l.
Proof.
  induction l as [|x l IH]; intros H; [reflexivity|]. cbn [filter].
  rewrite (H x (or_introl eq_refl)), IH; [reflexivity|].
  intros y Hy. apply H. now right.
Qed.

(** X16.  The export stage drops nothing from the table [run] writes: its
    band filter is the one [clean_data] already applied. *)
Theorem export_keeps_etl_table (df : list RawRow) (table : list FeatureRow) :
  run df = Ok table -> load_and_verify table = table.
Proof.
  unfold run. destruct (clean_data df) as [rows|] eqn:C; [|discriminate].
  intros [= <-]. unfold load_and_verify. apply filter_all.
  unfold feature_engineering. intros fr (r & <- & Hr)%in_map_iff.
  cbn [cleaned]. exact (clean_data_in_band df rows r C Hr).
Qed.

Lemma export_keeps_etl_table_sample :
  (exists table, run sample_listings = Ok table /\ load_and_verify table = table).
Proof.
  destruct (run sample_listings) as [table|] eqn:R; [|discriminate R].
  exists table. split; [reflexivity|].
  exact (export_keeps_etl_table sample_listings table R).
Defined.

(** ** [load_and_preprocess] and the check of [verify_fix.py] *)

Lemma filter_filter {A} (p q : A -> bool) l :
  filter q (filter p l) = filter (fun x => p x && q x) l.
Proof.
  induction l as [|x l IH]; [reflexivity|]. cbn [filter].
  destruct (p x); cbn [filter andb]; [destruct (q x)|]; now rewrite IH.
Qed.

Lemma filter_length_le {A} (p : A -> bool) l :
  (List.length (filter p l) <= List.length l)%nat.
Proof.
  induction l as [|x l IH]; [reflexivity|]. cbn [filter].
  destruct (p x); simpl; lia.
Qed.

(** X15.  [load_and_preprocess] returns the trainable rows of the table, in
    order, when there are ten of them or more, and raises [ValueError]
    otherwise: its first size check never decides on its own. *)
Theorem load_and_preprocess_trainable (table : list CleanRow) :
  load_and_preprocess table
  = if (List.length (filter trainable table) <? 10)%nat
    then Raise "ValueError"
    else Ok (filter trainable table).
Proof.
  unfold load_and_preprocess, len_rows_lt10. rewrite filter_filter.
  fold trainable. change (fun x => trainable x) with trainable.
  pose proof (filter_length_le trainable table) as L.
  destruct (Nat.ltb_spec (List.length (filter trainable table)) 10) as [S|B].
  - destruct (Z.ltb_spec (Z.of_nat (List.length table)) 10); [reflexivity|].
    now replace (Z.of_nat (List.length (filter trainable table)) <? 10) with true
      by (symmetry; apply Z.ltb_lt; lia).
  - replace (Z.of_nat (List.length table) <? 10) with false
      by (symmetry; apply Z.ltb_ge; lia).
    now replace (Z.of_nat (List.length (filter trainable table)) <? 10) with false
      by (symmetry; apply Z.ltb_ge; lia).
Qed.

(** X22.  On the table [clean_data] writes, the rows [verify_fix.py]
    counts as training data are the rows [load_and_preprocess] trains on. *)
Theorem verify_fix_matches_training
  (df : list RawRow) (rows trained : list CleanRow) :
  clean_data df = Ok rows ->
  load_and_preprocess rows = Ok trained ->
  df_filtered rows = trained.
Proof.
  intros C L. unfold load_and_preprocess in L.
  destruct (len_rows_lt10 rows); [discriminate|].
  destruct (len_rows_lt10 _); [discriminate|]. injection L as <-.
  rewrite filter_filter.
  unfold df_filtered. apply filter_ext_in. intros r Hr.
  pose proof (clean_data_in_band df rows r C Hr) as B.
  unfold in_band in B. apply andb_true_iff in B as [B1 B2].
  cbv beta. now rewrite B2, andb_true_r.
Qed.

Lemma verify_fix_matches_training_sample :
  clean_data ten_listings = Ok (repeat sample_clean_row 10) /\
  load_and_preprocess (repeat sample_clean_row 10)
  = Ok (repeat sample_clean_row 10) /\
  df_filtered (repeat sample_clean_row 10) = repeat sample_clean_row 10.
Proof.
  assert (C : clean_data ten_listings = Ok (repeat sample_clean_row 10))
    by (vm_compute; reflexivity).
  assert (L : load_and_preprocess (repeat sample_clean_row 10)
              = Ok (repeat sample_clean_row 10)) by (vm_compute; reflexivity).
  split; [exact C|]. split; [exact L|].
  exact (verify_fix_matches_training ten_listings _ _ C L).
Defined.

(** ** [process_for_export]: labels and skill tags *)

Lemma split_no_sep sep p : ~ In sep p -> split sep p = [p].
Proof.
  induction p as [|c p IH]; intros H; [reflexivity|]. cbn [split].
  replace (c =? sep)%N with false
    by (symmetry; apply N.eqb_neq; intros ->; apply H; now left).
  rewrite IH; [reflexivity|]. intros Hin. apply H. now right.
Qed.

Lemma split_app_sep sep p s :
  ~ In sep p -> split sep (p ++ sep :: s) = p :: split sep s.
Proof.
  induction p as [|c p IH]; intros H.
  - cbn [app split]. now rewrite N.eqb_refl.
  - cbn [app split].
    replace (c =? sep)%N with false
      by (symmetry; apply N.eqb_neq; intros ->; apply H; now left).
    rewrite IH; [reflexivity|]. intros Hin. apply H. now right.
Qed.

(** Splitting undoes joining, for parts free of the separator. *)
Lemma split_join sep parts :
  parts <> [] -> Forall (fun p => ~ In sep p) parts ->
  split sep (join [sep] parts) = parts.
Proof.
  intros Hne H. induction H as [|p ps Hp Hps IH]; [contradiction|].
  destruct ps as [|q ps].
  - cbn [join]. now apply split_no_sep.
  - change (join [sep] (p :: q :: ps)) with (p ++ sep :: join [sep] (q :: ps)).
    rewrite split_app_sep by assumption. now rewrite IH.
Qed.

Lemma skills_table skill :
  In skill skills ->
  startswith (u "has_") (u "has_" ++ skill) = true /\
  remove (u "has_") (u "has_" ++ skill) = skill /\
  ~ In 44%N skill.
Proof.
  intros Hin.
  assert (H : forallb (fun s =>
      startswith (u "has_") (u "has_" ++ s)
      && str_eqb (remove (u "has_") (u "has_" ++ s)) s
      && negb (existsb (N.eqb 44) s)) skills = true) by (vm_compute; reflexivity).
  eapply forallb_forall in H; [|exact Hin].
  apply andb_true_iff in H as [H H3]. apply andb_true_iff in H as [H1 H2].
  split; [assumption|]. split.
  - unfold str_eqb in H2. now destruct (list_eq_dec N.eq_dec _ skill).
  - intros Hc. apply negb_true_iff in H3.
    assert (existsb (N.eqb 44) skill = true)
      by (apply existsb_exists; exists 44%N; split; [assumption | apply N.eqb_refl]).
    congruence.
Qed.

Lemma tagged_skills text l :
  (forall skill, In skill l -> In skill skills) ->
  map (fun col => remove (u "has_") (fst col))
      (filter (fun col => snd col =? 1)
         (filter (fun col => startswith (u "has_") (fst col))
            (map (has_column text) l)))
  = filter (fun skill => contains (lower skill) text) l.
Proof.
  induction l as [|skill l IH]; intros H; [reflexivity|].
  destruct (skills_table skill (H skill (or_introl eq_refl))) as (S1 & S2 & _).
  assert (Ef : fst (has_column text skill) = u "has_" ++ skill) by reflexivity.
  assert (Es : snd (has_column text skill)
               = if contains (lower skill) text then 1 else 0) by reflexivity.
  specialize (IH (fun s Hs => H s (or_intror Hs))).
  cbn [map filter]. rewrite Ef, S1. cbn [filter]. rewrite Es.
  destruct (contains (lower skill) text); cbn [Z.eqb Pos.eqb map];
    now rewrite ?Ef, ?S2, IH.
Qed.

(** X19.  The skill tags of the export decode to the flags of the table:
    for a row [feature_engineering] made, the tag string is "无" when no
    skill of the vocabulary occurs in its text, and otherwise splitting it
    at the commas gives back exactly the skills that occur, in order. *)
Theorem skill_tags_round_trip (df : list CleanRow) (fr : FeatureRow) :
  In fr (feature_engineering df) ->
  (skills_found (text_data (cleaned fr)) = [] ->
   get_skill_tags fr = u "无") /\
  (skills_found (text_data (cleaned fr)) <> [] ->
   split 44%N (get_skill_tags fr) = skills_found (text_data (cleaned fr))).
Proof.
  intros Hin. unfold get_skill_tags.
  rewrite (feature_engineering_row df fr Hin), tagged_skills by auto.
  fold (skills_found (text_data (cleaned fr))).
  destruct (skills_found (text_data (cleaned fr))) as [|s found] eqn:F.
  - split; [reflexivity | contradiction].
  - split; [discriminate|]. intros _. change (u ",") with [44%N].
    apply split_join; [discriminate|].
    apply Forall_forall. intros skill Hs. rewrite <- F in Hs.
    apply filter_In in Hs as [Hs _]. now apply skills_table.
Qed.

Lemma skill_tags_round_trip_sample :
  get_skill_tags skilled_feature_row = u "Python,SQL,Excel" /\
  split 44%N (get_skill_tags skilled_feature_row)
  = map u ["Python"; "SQL"; "Excel"]%string.
Proof.
  split; [reflexivity|].
  destruct (skill_tags_round_trip [skilled_row] skilled_feature_row
              (or_introl eq_refl)) as [_ H].
  apply H. discriminate.
Defined.

Lemma clean_data_degree df rows r :
  clean_data df = Ok rows -> In r rows -> 0 <= degree_value r <= 4.
Proof.
  rewrite clean_data_kept.
  destruct (filter _ (with_salary df)) as [|k kept]; [discriminate|].
  intros [= <-] Hr. change (In r (map finish_row (k :: kept))) in Hr.
  apply in_map_iff in Hr as ([[r0 c] [[lo hi] avg]] & <- & _).
  rewrite finish_row_fields. cbn [degree_value].
  destruct (raw_text r0); cbn [_parse_exp_degree snd];
    [apply parse_degree_range | lia].
Qed.

(** X20.  Every row of the table [run] writes gets one of the five degree
    labels of the export, never the fallback "其他". *)
Theorem degree_label_of_etl_rows
  (df : list RawRow) (table : list FeatureRow) (fr : FeatureRow) :
  run df = Ok table -> In fr table ->
  In (degree_label (degree_value (cleaned fr)))
     (map u ["学历不限"; "大专"; "本科"; "硕士"; "博士"]%string) /\
  degree_label (degree_value (cleaned fr)) <> u "其他".
Proof.
  unfold run. destruct (clean_data df) as [rows|] eqn:C; [|discriminate].
  intros [= <-] (r & <- & Hr)%in_map_iff. cbn [cleaned].
  pose proof (clean_data_degree df rows r C Hr) as D.
  assert (degree_value r = 0 \/ degree_value r = 1 \/ degree_value r = 2 \/
          degree_value r = 3 \/ degree_value r = 4) as [E|[E|[E|[E|E]]]] by lia;
    rewrite E; (split; [cbn; tauto | discriminate]).
Qed.

Lemma degree_label_of_etl_rows_sample :
  run sample_listings = Ok (feature_engineering [sample_clean_row]) /\
  degree_label (degree_value sample_clean_row) = u "本科".
Proof.
  assert (R : run sample_listings = Ok (feature_engineering [sample_clean_row]))
    by (vm_compute; reflexivity).
  split; [exact R|].
  destruct (degree_label_of_etl_rows sample_listings _
              {| cleaned := sample_clean_row;
                 has_columns := map (has_column (text_data sample_clean_row)) skills |}
              R (or_introl eq_refl)) as [_ H].
  reflexivity.
Defined.

(** X10 and X11 on two rows: a title naming Python without a description,
    and a title and a description naming three skills. *)
Lemma feature_engineering_missing_field_sample :
  title (source title_only_row) = Str (u "Python工程师") /\
  raw_text (source title_only_row) = Missing /\
  forallb (fun col => snd col =? 0)
    (map (has_column (text_data title_only_row)) skills) = true /\
  snd (has_column (text_data title_only_row) (u "Python")) = 0.
Proof.
  split; [reflexivity|]. split; [reflexivity|]. split; [reflexivity|].
  apply (feature_engineering_missing_field [title_only_row]
           {| cleaned := title_only_row;
              has_columns := map (has_column (text_data title_only_row)) skills |}).
  - left. reflexivity.
  - right. reflexivity.
  - left. reflexivity.
Defined.

Lemma feature_engineering_skill_found_sample :
  In (u "has_SQL", 1) (has_columns skilled_feature_row).
Proof.
  apply (feature_engineering_skill_found [skilled_row] skilled_feature_row
           (u "PYTHON数据分析师") (u "熟悉sql和Excel") (u "SQL")).
  - left. reflexivity.
  - reflexivity.
  - reflexivity.
  - right. left. reflexivity.
  - right. apply contains_iff. reflexivity.
Defined.

(** ** The card loop of the spider *)

Lemma str_eqb_eq a b : str_eqb a b = true <-> a = b.
Proof. unfold str_eqb. destruct (list_eq_dec N.eq_dec a b); split; congruence. Qed.

Lemma seen_iff data_list full_text :
  existsb (fun d => str_eqb (item_raw_text d) full_text) data_list = true
  <-> In full_text (map item_raw_text data_list).
Proof.
  rewrite existsb_exists, in_map_iff.
  split; intros (d & H1 & H2); exists d.
  - apply str_eqb_eq in H2. now split.
  - split; [assumption | now apply str_eqb_eq].
Qed.

Lemma NoDup_snoc {A} (l : list A) x : NoDup l -> ~ In x l -> NoDup (l ++ [x]).
Proof.
  intros Hl Hx. apply NoDup_rev in Hl. rewrite <- (rev_involutive (l ++ [x])).
  apply NoDup_rev. rewrite rev_app_distr. cbn [rev app].
  constructor; [|assumption]. intros H. apply Hx. now apply in_rev.
Qed.

(** X21.  The card loop never stores the same card text twice, and never
    grows the list past the target it has not yet reached. *)
Theorem process_cards_no_duplicates
  (target_count : nat) (job_cards : list (pystr * cell)) (data_list : list Item) :
  NoDup (map item_raw_text data_list) ->
  (List.length data_list < target_count)%nat ->
  NoDup (map item_raw_text (process_cards target_count data_list job_cards)) /\
  (List.length (process_cards target_count data_list job_cards)
   <= target_count)%nat.
Proof.
  revert data_list.
  induction job_cards as [|[full_text ocr] rest IH]; intros data_list Hnd Hlen.
  - cbn [process_cards]. split; [assumption | lia].
  - cbn [process_cards].
    destruct (existsb _ data_list) eqn:Seen; [now apply IH|].
    destruct (clean_salary ocr) as [[|c real]|]; try now apply IH.
    assert (Hnd' : NoDup (map item_raw_text
                     (data_list ++ [make_item full_text (c :: real)]))).
    { rewrite map_app. cbn [map make_item item_raw_text].
      apply NoDup_snoc; [assumption|].
      intros H%seen_iff. congruence. }
    assert (Hlen' : List.length (data_list ++ [make_item full_text (c :: real)])
                    = S (List.length data_list))
      by (rewrite length_app; simpl; lia).
    destruct (Nat.leb_spec target_count
                (List.length (data_list ++ [make_item full_text (c :: real)]))).
    + split; [assumption | lia].
    + apply IH; [assumption | lia].
Qed.

Lemma process_cards_no_duplicates_sample :
  map item_salary
    (process_cards 2 []
       [(u "数据分析师", Str (u "2040K")); (u "数据分析师", Str (u "15-20K"));
        (u "算法工程师", Str (u "双休")); (u "数据工程师", Str (u "30k"));
        (u "数据科学家", Str (u "30k"))])
  = [u "20-40K"; u "30K"] /\
  NoDup (map item_raw_text
    (process_cards 2 []
       [(u "数据分析师", Str (u "2040K")); (u "数据分析师", Str (u "15-20K"));
        (u "算法工程师", Str (u "双休")); (u "数据工程师", Str (u "30k"));
        (u "数据科学家", Str (u "30k"))])).
Proof.
  split; [reflexivity|].
  apply (process_cards_no_duplicates 2); [constructor | simpl; lia].
Defined.

(** X23.  Whatever the card loop adds was accepted by the cleaner: every
    item of the result is an item of the list it started from, or carries
    the text of one of the cards with the cleaned form of that card's OCR
    salary, and the first line of the text as its title. *)
Theorem process_cards_provenance
  (target_count : nat) (job_cards : list (pystr * cell)) (data_list : list Item)
  (item : Item) :
  In item (process_cards target_count data_list job_cards) ->
  In item data_list \/
  exists ocr,
    In (item_raw_text item, ocr) job_cards /\
    clean_salary ocr = Some (item_salary item) /\
    item_salary item <> [] /\
    item_title item = hd [] (split 10%N (item_raw_text item)).
Proof.
  revert data_list.
  induction job_cards as [|[full_text ocr] rest IH]; intros data_list.
  - cbn [process_cards]. now left.
  - cbn [process_cards].
    assert (Hrest : In item (process_cards target_count data_list rest) ->
              In item data_list \/
              exists ocr0,
                In (item_raw_text item, ocr0) ((full_text, ocr) :: rest) /\
                clean_salary ocr0 = Some (item_salary item) /\
                item_salary item <> [] /\
                item_title item = hd [] (split 10%N (item_raw_text item))).
    { intros H. destruct (IH _ H) as [H'|(o & Ho & Hrest)]; [now left|].
      right. exists o. split; [now right | assumption]. }
    destruct (existsb _ data_list); [exact Hrest|].
    destruct (clean_salary ocr) as [[|c real]|] eqn:C; try exact Hrest.
    assert (Hnew : In item (data_list ++ [make_item full_text (c :: real)]) ->
              In item data_list \/
              exists ocr0,
                In (item_raw_text item, ocr0) ((full_text, ocr) :: rest) /\
                clean_salary ocr0 = Some (item_salary item) /\
                item_salary item <> [] /\
                item_title item = hd [] (split 10%N (item_raw_text item))).
    { intros [H|[<-|[]]]%in_app_or; [now left|]. right. exists ocr.
      cbn [make_item item_raw_text item_salary item_title].
      repeat split; try assumption; [now left | discriminate]. }
    destruct (_ <=? _)%nat; [exact Hnew|].
    intros H. destruct (IH _ H) as [H'|(o & Ho & Hr)].
    + exact (Hnew H').
    + right. exists o. split; [now right | assumption].
Qed.

Lemma process_cards_provenance_sample :
  In (make_item (u "数据工程师") (u "30K"))
     (process_cards 2 [] [(u "算法工程师", Str (u "双休"));
                          (u "数据工程师", Str (u "30k"))]) /\
  clean_salary (Str (u "30k")) = Some (u "30K").
Proof.
  assert (Hin : In (make_item (u "数据工程师") (u "30K"))
            (process_cards 2 [] [(u "算法工程师", Str (u "双休"));
                                 (u "数据工程师", Str (u "30k"))]))
    by (left; reflexivity).
  split; [exact Hin|].
  destruct (process_cards_provenance 2 _ [] _ Hin) as [[]|(ocr & Hc & Hs & _)].
  destruct Hc as [[=]|[[= <-]|[]]]. exact Hs.
Defined.

(** ** Normal forms of the salary string *)

Lemma drop_while_idem p s : drop_while p (drop_while p s) = drop_while p s.
Proof.
  induction s as [|c s IH]; [reflexivity|]. simpl.
  destruct (p c) eqn:E; [exact IH|]. simpl. now rewrite E.
Qed.

Lemma drop_while_snoc p s c :
  p c = false -> drop_while p (s ++ [c]) = drop_while p s ++ [c].
Proof.
  intros Hc. induction s as [|x s IH]; simpl; [now rewrite Hc|].
  now destruct (p x).
Qed.

Lemma rstrip_cons c r : isspace c = false -> rstrip (c :: r) = c :: rstrip r.
Proof.
  intros Hc. unfold rstrip. cbn [rev].
  rewrite drop_while_snoc by assumption. now rewrite rev_app_distr.
Qed.

Lemma strip_idem s : strip (strip s) = strip s.
Proof.
  unfold strip, lstrip.
  assert (L : drop_while isspace (rstrip (drop_while isspace s))
              = rstrip (drop_while isspace s)).
  { destruct (drop_while isspace s) as [|c r] eqn:E; [reflexivity|].
    assert (Hc : isspace c = false).
    { clear - E. induction s as [|x s IH]; [discriminate|]. simpl in E.
      destruct (isspace x) eqn:X; [auto|]. now injection E as <- _. }
    rewrite rstrip_cons by assumption. now apply drop_while_stop. }
  rewrite L. unfold rstrip. now rewrite rev_involutive, drop_while_idem.
Qed.

Lemma isspace_upper_char c : isspace (upper_char c) = isspace c.
Proof.
  unfold upper_char. destruct (islower_ascii c) eqn:L; [|reflexivity].
  unfold islower_ascii, in_range in L.
  apply andb_true_iff in L as [L1%N.leb_le L2%N.leb_le].
  unfold isspace, in_range. decide_cmp. reflexivity.
Qed.

Lemma drop_while_upper s :
  drop_while isspace (upper s) = upper (drop_while isspace s).
Proof.
  unfold upper. induction s as [|c s IH]; [reflexivity|]. cbn [map drop_while].
  rewrite isspace_upper_char. now destruct (isspace c).
Qed.

Lemma rev_upper s : rev (upper s) = upper (rev s).
Proof. unfold upper. now rewrite map_rev. Qed.

Lemma strip_upper s : strip (upper s) = upper (strip s).
Proof.
  unfold strip, lstrip, rstrip.
  now rewrite drop_while_upper, rev_upper, drop_while_upper, rev_upper.
Qed.

Lemma upper_idem s : upper (upper s) = upper s.
Proof.
  unfold upper. rewrite map_map. apply map_ext. apply upper_char_idem.
Qed.

(** X24.  Normalising a salary string (upper case, outer white space
    removed) is idempotent, and the parser reads a string and its normal
    form alike: case and surrounding blanks never change the triple. *)
Theorem parse_salary_normal_form (raw : pystr) :
  normalize (normalize raw) = normalize raw /\
  _parse_salary (Str (normalize raw)) = _parse_salary (Str raw).
Proof.
  assert (E : normalize (normalize raw) = normalize raw).
  { unfold normalize. now rewrite <- strip_upper, upper_idem, strip_idem. }
  split; [exact E|].
  unfold _parse_salary. now rewrite E.
Qed.

(** X24 on a padded lower-case token. *)
Example parse_salary_normal_form_sample :
  normalize (u "  15-25k ") = u "15-25K" /\
  _parse_salary (Str (u "  15-25k "))
  = Some (PyInt 15000, PyInt 25000, PyInt 20000).
Proof. split; reflexivity. Qed.

(** X25.  Which ranges the band lets through: a row whose salary is
    [<a>-<b>K] with [a <= b <= 200] survives [clean_data] exactly when
    [4 < a + b < 100], the mean lying strictly between 2000 and 50000. *)
Theorem range_survives_band (r : RawRow) (da db : pystr) :
  salary r = Str (hyphen_token da db) ->
  numeral da -> numeral db -> int da <= int db -> int db <= 200 ->
  (survives r = true <-> 4 < int da + int db < 100).
Proof.
  intros Hs Ha Hb Hab Hb200. unfold survives.
  rewrite Hs, parse_salary_hyphen_small by assumption.
  unfold triple_of, in_band, lt, gt. rewrite andb_true_iff, !Z.ltb_lt. lia.
Qed.

Lemma range_survives_band_samples :
  (survives {| title := Missing; salary := Str (u "15-25K");
               city := Missing; raw_text := Missing |} = true) /\
  (survives {| title := Missing; salary := Str (u "50-50K");
               city := Missing; raw_text := Missing |} = false).
Proof.
  assert (N : forall s, s <> [] -> forallb isdigit s = true -> numeral s).
  { intros s Hne H. split; [assumption|].
    apply Forall_forall. now apply forallb_forall. }
  split.
  - apply (range_survives_band _ (u "15") (u "25")); try reflexivity;
      try (now apply N); vm_compute; try discriminate. split; reflexivity.
  - destruct (survives _) eqn:S; [|reflexivity].
    apply (range_survives_band _ (u "50") (u "50")) in S; try reflexivity;
      try (now apply N); try (vm_compute; discriminate).
    vm_compute in S. destruct S as [_ S]. discriminate S.
Defined.
